(** * Humor mapper: the model-fallback sequencer of [app.py]

    A shallow embedding of [smart_translate_humor], of [save_translation_to_db]
    and of the handler of the "Translate Humor" button, with the properties of
    the fallback loop: acceptance, the attempt log, the models contacted, the
    pause between attempts and the persisted record. *)

From Stdlib Require Import ZArith String Ascii Bool Lia Arith List.
From Stdlib Require Import DecimalString.
Import ListNotations.

Set Implicit Arguments.

(* ================================================================== *)
(** ** Python strings *)
(* ================================================================== *)

(** A Python [str] is a sequence of Unicode code points; [len] counts code
    points. *)
Definition pystr := list N.

(** The code points of an ASCII literal of the source. *)
Definition u (s : string) : pystr :=
  map N_of_ascii (list_ascii_of_string s).

(** [str.isspace] on one code point: the code points CPython's
    [_PyUnicode_IsWhitespace] accepts. *)
Definition isspace (c : N) : bool :=
  ((9 <=? c) && (c <=? 13) || (28 <=? c) && (c <=? 32)
   || (c =? 133) || (c =? 160) || (c =? 5760)
   || (8192 <=? c) && (c <=? 8202)
   || (c =? 8232) || (c =? 8233) || (c =? 8239) || (c =? 8287)
   || (c =? 12288))%N.

Fixpoint lstrip (s : pystr) : pystr :=
  match s with
  | c :: s' => if isspace c then lstrip s' else s
  | [] => []
  end.

(** [s.strip()] *)
Definition strip (s : pystr) : pystr := rev (lstrip (rev (lstrip s))).

(** [len(s)] as a Python int. *)
Definition len (s : pystr) : Z := Z.of_nat (length s).

Definition pystr_eqb (a b : pystr) : bool :=
  if list_eq_dec N.eq_dec a b then true else false.

Fixpoint startswith (s p : pystr) : bool :=
  match p, s with
  | [], _ => true
  | c :: p', d :: s' => (c =? d)%N && startswith s' p'
  | _ :: _, [] => false
  end.

(** [p in s] on two strings: [p] occurs in [s] as a substring. *)
Fixpoint str_contains (s p : pystr) : bool :=
  startswith s p ||
  match s with
  | [] => false
  | _ :: s' => str_contains s' p
  end.

(** [s.split(sep)] for a one-character separator: never empty. *)
Fixpoint split (sep : N) (s : pystr) : list pystr :=
  match s with
  | [] => [[]]
  | c :: s' =>
      if (c =? sep)%N then [] :: split sep s'
      else match split sep s' with
           | w :: ws => (c :: w) :: ws
           | [] => [[c]]
           end
  end.

(** [str(n)] for a Python int. *)
Definition str_of_int (n : Z) : pystr :=
  u (NilZero.string_of_int (Z.to_int n)).

(** [l[:k]]: a negative bound counts from the end, and the bound is clamped
    to the list. *)
Definition slice_to {A} (l : list A) (k : Z) : list A :=
  if (k <? 0)%Z
  then firstn (Z.to_nat (Z.max 0 (Z.of_nat (length l) + k))) l
  else firstn (Z.to_nat k) l.

(** [enumerate(l)] *)
Definition enumerate {A} (l : list A) : list (nat * A) :=
  combine (seq 0 (length l)) l.

(** Truth value of a string: non-empty. *)
Definition truthy (s : pystr) : bool :=
  match s with [] => false | _ :: _ => true end.

(* ================================================================== *)
(** ** Values of a parsed JSON body, exceptions *)
(* ================================================================== *)

(** What [response.json()] returns. A dict is kept as its list of items,
    looked up by key. *)
#[warnings="-register-all"]
Inductive json : Type :=
| JNull
| JBool (b : bool)
| JInt (z : Z)
| JFloat (mantissa exponent : Z)
| JStr (s : pystr)
| JArr (l : list json)
| JObj (d : list (pystr * json)).

Fixpoint dict_get (d : list (pystr * json)) (key : pystr) : option json :=
  match d with
  | [] => None
  | (k, v) :: d' => if pystr_eqb k key then Some v else dict_get d' key
  end.

(** The exceptions the loop body can meet. [Timeout] stands for
    [requests.exceptions.Timeout] and its subclasses, [RequestFailure] for
    any other exception out of [requests.post]. *)
Inductive exn : Type :=
| Timeout
| RequestFailure (msg : pystr)
| JSONDecodeError
| TypeError
| KeyError
| IndexError
| AttributeError.

Inductive res (A : Type) : Type :=
| Ok (a : A)
| Raise (e : exn).
Arguments Raise {A} e.

(** [key in data] for a string [key]. *)
Definition py_in (key : pystr) (data : json) : res bool :=
  match data with
  | JObj d => Ok (match dict_get d key with Some _ => true | None => false end)
  | JArr l =>
      Ok (existsb (fun x => match x with
                            | JStr s => pystr_eqb s key
                            | _ => false
                            end) l)
  | JStr s => Ok (str_contains s key)
  | _ => Raise TypeError
  end.

(** [x[key]] for a string [key]. *)
Definition getitem_key (x : json) (key : pystr) : res json :=
  match x with
  | JObj d => match dict_get d key with
              | Some v => Ok v
              | None => Raise KeyError
              end
  | _ => Raise TypeError
  end.

(** [x[0]] *)
Definition getitem_0 (x : json) : res json :=
  match x with
  | JArr (v :: _) => Ok v
  | JArr [] => Raise IndexError
  | JStr (c :: _) => Ok (JStr [c])
  | JStr [] => Raise IndexError
  | JObj _ => Raise KeyError
  | _ => Raise TypeError
  end.

(* ================================================================== *)
(** ** The outside world: requests, responses, what the user sees *)
(* ================================================================== *)

(** The arguments of [requests.post]. [temperature] is the number as
    [json.dumps] writes it. *)
Record request : Type := {
  url : pystr;
  authorization : pystr;
  content_type : pystr;
  model : pystr;
  content : pystr;
  max_tokens : Z;
  temperature : pystr;
  timeout : Z
}.

(** A response: its status and what [response.json()] gives ([None]: it
    raises). *)
Record response : Type := {
  status_code : Z;
  json_body : option json
}.

Inductive post_result : Type :=
| PostRaises (e : exn)
| PostReturns (r : response).

(** The row [save_translation_to_db] inserts. *)
Record translation_row : Type := {
  row_user_email : pystr;
  original_text : pystr;
  row_target_culture : pystr;
  translated_text : pystr;
  model_used : pystr
}.

(** Everything the program does to the outside, in the order it does it:
    the request sent, the pause, the row inserted, and what Streamlit is
    asked to show, one constructor per call site with the values its
    message is built from. The display calls and [time.sleep] are taken
    to return: the exceptions of the loop come from [requests.post], from
    [response.json()] and from the lookups in the parsed body. *)
Inductive event : Type :=
| StWriteTrying (model_name : pystr)
| RequestsPost (r : request)
| StSuccessWith (model_name : pystr)
| StWarningEmpty (model_name : pystr)
| StWarningFailed (model_name error_msg : pystr)
| TimeSleep (secs : Z)
| StWarningTimedOut (model_name : pystr)
| StWarningError (model_name : pystr) (e : exn)
| StWarningFillBoth
| StSuccessAdapted
| StMarkdown (text : pystr)
| ComponentsHtml (text : pystr)
| StInfoModelUsed (model_name : pystr)
| TableInsert (row : translation_row)
| StErrorSave (e : exn)
| StSuccessSaved
| SetLastTranslation (original target translated : pystr) (used : option pystr)
| StErrorAllFailed
| StWriteHistoryTitle
| StWriteAttempt (attempt : pystr)
| StInfoWhatToDo.

(* ================================================================== *)
(** ** State and exceptions of the loop body *)
(* ================================================================== *)

(** The list [attempts] and the trace of events. *)
Record state : Type := {
  attempts : list pystr;
  trace : list event
}.

(** The state after more events. *)
Definition add_events (s : state) (evs : list event) : state :=
  {| attempts := attempts s; trace := trace s ++ evs |}.

Definition M (A : Type) : Type := state -> res A * state.

Definition ret {A} (a : A) : M A := fun s => (Ok a, s).

Definition raise {A} (e : exn) : M A := fun s => (Raise e, s).

Definition bind {A B} (c : M A) (k : A -> M B) : M B :=
  fun s => match c s with
           | (Ok a, s') => k a s'
           | (Raise e, s') => (Raise e, s')
           end.

Definition lift {A} (r : res A) : M A := fun s => (r, s).

Notation "x <- c ;; k" := (bind c (fun x => k))
  (at level 61, c at next level, right associativity).
Notation "c ;; k" := (bind c (fun _ => k))
  (at level 61, right associativity).

(** [attempts.append(a)] *)
Definition attempts_append (a : pystr) : M unit :=
  fun s => (Ok tt, {| attempts := attempts s ++ [a]; trace := trace s |}).

Definition emit (e : event) : M unit :=
  fun s => (Ok tt, {| attempts := attempts s; trace := trace s ++ [e] |}).

Definition when (b : bool) (c : M unit) : M unit :=
  if b then c else ret tt.

(* ================================================================== *)
(** ** The sequencer: [smart_translate_humor] *)
(* ================================================================== *)

Definition FREE_MODELS : list pystr :=
  [ u "mistralai/mistral-small-3.2-24b-instruct:free";
    u "meta-llama/llama-3-8b-instruct:free";
    u "google/gemma-7b-it:free";
    u "nousresearch/nous-hermes-2-mixtral-8x7b-dpo:free";
    u "google/gemma-2b-it:free";
    u "meta-llama/llama-2-13b-chat:free";
    u "microsoft/wizardlm-2-8x22b:free";
    u "undi95/toppy-m-7b:free" ].

(** The f-string [prompt]. *)
Definition make_prompt (input_text target_culture : pystr) : pystr :=
  u "Translate or adapt the following joke or phrase into humor suitable for "
    ++ target_culture ++ u " culture. "
    ++ u "Maintain the spirit of the joke but make it funny and understandable to that culture."
    ++ [10; 10]%N
    ++ u "Input: " ++ input_text ++ [10; 10]%N ++ u "Translated Humor:".

(** [model.split('/')[-1]] *)
Definition model_name_of (model : pystr) : pystr :=
  last (split 47 model) [].

(** [f"Attempt {i+1}: {model_name}"] *)
Definition attempt_line (i : nat) (model_name : pystr) : pystr :=
  u "Attempt " ++ str_of_int (Z.of_nat i + 1) ++ u ": " ++ model_name.

(** The message of a failed status: [f"HTTP {status}"], replaced for 429 and
    503. *)
Definition error_msg_of (status : Z) : pystr :=
  if (status =? 429)%Z then u "Rate limited"
  else if (status =? 503)%Z then u "Service overloaded"
  else u "HTTP " ++ str_of_int status.

Section Sequencer.

(** The secret read at start-up. *)
Variable OPENROUTER_API_KEY : pystr.

(** The inference API: what the [n]-th request of a call meets. *)
Variable post : nat -> request -> post_result.

(** [headers], [body] and the other arguments of the request for one
    model. *)
Definition make_request (prompt model : pystr) : request :=
  {| url := u "https://openrouter.ai/api/v1/chat/completions";
     authorization := u "Bearer " ++ OPENROUTER_API_KEY;
     content_type := u "application/json";
     model := model;
     content := prompt;
     max_tokens := 500;
     temperature := u "0.7";
     timeout := 30 |}.

(** [requests.post(...)]: the request goes out, then the call returns or
    raises. *)
Definition requests_post (n : nat) (r : request) : M response :=
  emit (RequestsPost r) ;;
  match post n r with
  | PostReturns resp => ret resp
  | PostRaises e => raise e
  end.

(** [response.json()] *)
Definition response_json (resp : response) : M json :=
  match json_body resp with
  | Some data => ret data
  | None => raise JSONDecodeError
  end.

(** The statement [if response.status_code == 200: ... else: ...]. The
    value is [Some (translated_text, model)] where the source returns from
    the function, [None] where control falls out of the statement. *)
Definition check_response (max_attempts : Z) (model model_name : pystr)
    (resp : response) : M (option (pystr * pystr)) :=
  if (status_code resp =? 200)%Z then
    data <- response_json resp ;;
    has_choices <- lift (py_in (u "choices") data) ;;
    if has_choices then
      choices <- lift (getitem_key data (u "choices")) ;;
      choice <- lift (getitem_0 choices) ;;
      message <- lift (getitem_key choice (u "message")) ;;
      translated <- lift (getitem_key message (u "content")) ;;
      match translated with
      | JStr text =>
          if (10 <? len (strip text))%Z then
            when (1 <? max_attempts)%Z (emit (StSuccessWith model_name)) ;;
            ret (Some (text, model))
          else
            emit (StWarningEmpty model_name) ;;
            ret None
      | _ => raise AttributeError
      end
    else ret None
  else
    let error_msg := error_msg_of (status_code resp) in
    when (1 <? max_attempts)%Z
         (emit (StWarningFailed model_name error_msg)) ;;
    ret None.

(** The body of the [try]. *)
Definition try_body (max_attempts : Z) (prompt : pystr) (i : nat)
    (model : pystr) : M (option (pystr * pystr)) :=
  let model_name := model_name_of model in
  attempts_append (attempt_line i model_name) ;;
  when (1 <? max_attempts)%Z (emit (StWriteTrying model_name)) ;;
  resp <- requests_post i (make_request prompt model) ;;
  returned <- check_response max_attempts model model_name resp ;;
  match returned with
  | Some r => ret (Some r)
  | None =>
      when (Z.of_nat i <? max_attempts - 1)%Z (emit (TimeSleep 2)) ;;
      ret None
  end.

(** One turn of the [for]: the [try] with its two handlers. *)
Definition iteration (max_attempts : Z) (prompt : pystr) (i : nat)
    (model : pystr) (s : state) : option (pystr * pystr) * state :=
  let model_name := model_name_of model in
  match try_body max_attempts prompt i model s with
  | (Ok returned, s') => (returned, s')
  | (Raise Timeout, s') =>
      match (when (1 <? max_attempts)%Z
                  (emit (StWarningTimedOut model_name)) ;;
             attempts_append (attempt_line i model_name ++ u " - Timeout")) s'
      with (_, s'') => (None, s'') end
  | (Raise e, s') =>
      match (when (1 <? max_attempts)%Z
                  (emit (StWarningError model_name e)) ;;
             attempts_append (attempt_line i model_name ++ u " - Error")) s'
      with (_, s'') => (None, s'') end
  end.

(** The [for] over the enumerated models, and the [return] after it. *)
Fixpoint for_loop (max_attempts : Z) (prompt : pystr)
    (ims : list (nat * pystr)) (s : state)
  : (option pystr * option pystr * list pystr) * list event :=
  match ims with
  | [] => ((None, None, attempts s), trace s)
  | (i, model) :: rest =>
      match iteration max_attempts prompt i model s with
      | (Some (text, used), s') =>
          ((Some text, Some used, attempts s'), trace s')
      | (None, s') => for_loop max_attempts prompt rest s'
      end
  end.

(** [smart_translate_humor(input_text, target_culture, max_attempts)]:
    the returned triple and the events of the call. *)
Definition smart_translate_humor (input_text target_culture : pystr)
    (max_attempts : Z)
  : (option pystr * option pystr * list pystr) * list event :=
  for_loop max_attempts (make_prompt input_text target_culture)
           (enumerate (slice_to FREE_MODELS max_attempts))
           {| attempts := []; trace := [] |}.

End Sequencer.

(* ================================================================== *)
(** ** Persistence and the handler of the "Translate Humor" button *)
(* ================================================================== *)

(** The two entries of [st.session_state] the handler reads:
    ["supabase_client"] (present or not) and ["user_email"]. *)
Record session : Type := {
  supabase_client : bool;
  user_email : option pystr
}.

(** Truth value of [None] or a string. *)
Definition opt_truthy (o : option pystr) : bool :=
  match o with
  | Some s => truthy s
  | None => false
  end.

Section Handler.

Variable OPENROUTER_API_KEY : pystr.
Variable post : nat -> request -> post_result.

(** The database: [insert(data).execute()] returns ([None]) or raises. *)
Variable insert_execute : translation_row -> option exn.

(** [save_translation_to_db]: the events of the call. *)
Definition save_translation_to_db (sess : session)
    (input_text target_culture translated model_used : pystr)
  : list event :=
  if supabase_client sess then
    match user_email sess with
    | None => [StErrorSave KeyError]
    | Some email =>
        let data := {| row_user_email := email;
                       original_text := input_text;
                       row_target_culture := target_culture;
                       translated_text := translated;
                       model_used := model_used |} in
        TableInsert data ::
        match insert_execute data with
        | None => []
        | Some e => [StErrorSave e]
        end
    end
  else [].

(** The [else] branch of [if translated_text:]. *)
Definition report_failure (attempts : list pystr) : list event :=
  [StErrorAllFailed; StWriteHistoryTitle]
    ++ map StWriteAttempt attempts ++ [StInfoWhatToDo].

(** The body of [if st.button("Translate Humor ...")]: the events of one
    click. The text-to-speech block is read as part of the branch
    [if translated_text:] it sits in; it shows one HTML component. *)
Definition on_translate (sess : session) (input_text target_culture : pystr)
    (max_attempts : Z) (save_translation show_debug : bool) : list event :=
  if negb (truthy input_text) || negb (truthy target_culture) then
    [StWarningFillBoth]
  else
    match smart_translate_humor OPENROUTER_API_KEY post
            input_text target_culture max_attempts with
    | ((translated, used, attempts), events) =>
        events ++
        match translated with
        | Some text =>
            if truthy text then
              [StSuccessAdapted; StMarkdown text; ComponentsHtml text]
              ++ (if show_debug && opt_truthy used
                  then match used with
                       | Some m => [StInfoModelUsed (model_name_of m)]
                       | None => []
                       end
                  else [])
              ++ (if save_translation && opt_truthy used
                  then match used with
                       | Some m =>
                           save_translation_to_db sess input_text
                             target_culture text m
                           ++ [StSuccessSaved]
                       | None => []
                       end
                  else [])
              ++ [SetLastTranslation input_text target_culture text used]
            else report_failure attempts
        | None => report_failure attempts
        end
    end.

End Handler.

(* ================================================================== *)
(** ** Outcomes of an attempt, as the specification names them *)
(* ================================================================== *)

(** The outcome classes of an attempt: the seven tags of the attempt log,
    and [NoChoices] for a body in which ["choices" in data] is false. *)
Inductive outcome : Type :=
| Success (text : pystr)
| EmptyResponse
| NoChoices
| RateLimited
| Overloaded
| HttpError (status : Z)
| TimedOut
| Exception (e : exn).

(** The generated content of a body: [choices[0].message.content], a
    string, in a body made of objects and one array. *)
Definition generated_content (data : json) : option pystr :=
  match data with
  | JObj d =>
      match dict_get d (u "choices") with
      | Some (JArr (JObj choice :: _)) =>
          match dict_get choice (u "message") with
          | Some (JObj message) =>
              match dict_get message (u "content") with
              | Some (JStr text) => Some text
              | _ => None
              end
          | _ => None
          end
      | _ => None
      end
  | _ => None
  end.

(** The lookups of the source on a parsed body, without the messages:
    [Ok None] where ["choices" in data] is false, [Ok (Some text)] where
    the content is reached and has a [strip] method, [Raise] otherwise. *)
Definition content_of (data : json) : res (option pystr) :=
  match py_in (u "choices") data with
  | Raise e => Raise e
  | Ok false => Ok None
  | Ok true =>
      match getitem_key data (u "choices") with
      | Raise e => Raise e
      | Ok choices =>
          match getitem_0 choices with
          | Raise e => Raise e
          | Ok choice =>
              match getitem_key choice (u "message") with
              | Raise e => Raise e
              | Ok message =>
                  match getitem_key message (u "content") with
                  | Raise e => Raise e
                  | Ok (JStr text) => Ok (Some text)
                  | Ok _ => Raise AttributeError
                  end
              end
          end
      end
  end.

(** The class of what a request met. *)
Definition classify (r : post_result) : outcome :=
  match r with
  | PostRaises Timeout => TimedOut
  | PostRaises e => Exception e
  | PostReturns resp =>
      if (status_code resp =? 200)%Z then
        match json_body resp with
        | None => Exception JSONDecodeError
        | Some data =>
            match content_of data with
            | Raise e => Exception e
            | Ok None => NoChoices
            | Ok (Some text) =>
                if (10 <? len (strip text))%Z then Success text
                else EmptyResponse
            end
        end
      else if (status_code resp =? 429)%Z then RateLimited
      else if (status_code resp =? 503)%Z then Overloaded
      else HttpError (status_code resp)
  end.

(** Acceptance in the words of the specification: status 200, a body that
    parses and holds generated content, of trimmed length above 10. *)
Definition accepts (r : post_result) (text : pystr) : Prop :=
  exists resp data,
    r = PostReturns resp /\ status_code resp = 200%Z /\
    json_body resp = Some data /\
    generated_content data = Some text /\ (10 < len (strip text))%Z.

Definition is_success (o : outcome) : bool :=
  match o with Success _ => true | _ => false end.

(** The attempt ended in an exception. *)
Definition raised (o : outcome) : bool :=
  match o with TimedOut | Exception _ => true | _ => false end.

(** The lines one attempt adds to [attempts]. *)
Definition log_lines (i : nat) (model_name : pystr) (o : outcome)
  : list pystr :=
  attempt_line i model_name ::
  match o with
  | TimedOut => [attempt_line i model_name ++ u " - Timeout"]
  | Exception _ => [attempt_line i model_name ++ u " - Error"]
  | _ => []
  end.

(** A message shown only when several models may be tried. *)
Definition shown (max_attempts : Z) (e : event) : list event :=
  if (1 <? max_attempts)%Z then [e] else [].

(** [time.sleep(2)] under its guard. *)
Definition pause (max_attempts : Z) (i : nat) : list event :=
  if (Z.of_nat i <? max_attempts - 1)%Z then [TimeSleep 2] else [].

(** What is shown, and the pause, after the request of an attempt. *)
Definition events_after (max_attempts : Z) (i : nat) (model_name : pystr)
    (o : outcome) : list event :=
  match o with
  | Success _ => shown max_attempts (StSuccessWith model_name)
  | EmptyResponse => StWarningEmpty model_name :: pause max_attempts i
  | NoChoices => pause max_attempts i
  | RateLimited =>
      shown max_attempts (StWarningFailed model_name (u "Rate limited"))
        ++ pause max_attempts i
  | Overloaded =>
      shown max_attempts (StWarningFailed model_name (u "Service overloaded"))
        ++ pause max_attempts i
  | HttpError status =>
      shown max_attempts
            (StWarningFailed model_name (u "HTTP " ++ str_of_int status))
        ++ pause max_attempts i
  | TimedOut => shown max_attempts (StWarningTimedOut model_name)
  | Exception e => shown max_attempts (StWarningError model_name e)
  end.

(** The models of the requests of a trace, in order. *)
Fixpoint contacted (tr : list event) : list pystr :=
  match tr with
  | [] => []
  | RequestsPost r :: tr' => model r :: contacted tr'
  | _ :: tr' => contacted tr'
  end.

(** The pauses of a trace, in order. *)
Fixpoint sleeps (tr : list event) : list Z :=
  match tr with
  | [] => []
  | TimeSleep n :: tr' => n :: sleeps tr'
  | _ :: tr' => sleeps tr'
  end.

(** The rows a trace inserts. *)
Fixpoint inserted (tr : list event) : list translation_row :=
  match tr with
  | [] => []
  | TableInsert row :: tr' => row :: inserted tr'
  | _ :: tr' => inserted tr'
  end.

Section Attempts.

Variable OPENROUTER_API_KEY : pystr.
Variable post : nat -> request -> post_result.
Variable max_attempts : Z.
Variable prompt : pystr.

(** The outcome of the attempt at position [i] on [model]. *)
Definition outcome_at (im : nat * pystr) : outcome :=
  classify (post (fst im)
                 (make_request OPENROUTER_API_KEY prompt (snd im))).

Definition lines_at (im : nat * pystr) : list pystr :=
  log_lines (fst im) (model_name_of (snd im)) (outcome_at im).

Definition events_at (im : nat * pystr) : list event :=
  shown max_attempts (StWriteTrying (model_name_of (snd im)))
    ++ RequestsPost (make_request OPENROUTER_API_KEY prompt (snd im))
    :: events_after max_attempts (fst im) (model_name_of (snd im))
                    (outcome_at im).

(** The value a turn of the loop hands back: the accepted text and
    model. *)
Definition accepted_pair (im : nat * pystr) : option (pystr * pystr) :=
  match outcome_at im with
  | Success text => Some (text, snd im)
  | _ => None
  end.

(** The attempts made: the models up to the first one that succeeds. *)
Fixpoint attempted (ims : list (nat * pystr)) : list (nat * pystr) :=
  match ims with
  | [] => []
  | im :: rest =>
      im :: (if is_success (outcome_at im) then [] else attempted rest)
  end.

(** The text and model of the first success, if any. *)
Fixpoint first_success (ims : list (nat * pystr))
  : option (pystr * pystr) :=
  match ims with
  | [] => None
  | im :: rest =>
      match outcome_at im with
      | Success text => Some (text, snd im)
      | _ => first_success rest
      end
  end.

End Attempts.

(* ================================================================== *)
(** ** The returned triple, and the claims that do not hold as worded *)
(* ================================================================== *)

Definition result : Type :=
  ((option pystr * option pystr * list pystr) * list event)%type.

Definition text_of (r : result) : option pystr := fst (fst (fst r)).
Definition used_of (r : result) : option pystr := snd (fst (fst r)).
Definition log_of (r : result) : list pystr := snd (fst r).
Definition trace_of (r : result) : list event := snd r.

(** The outcome tags of the attempt log of the specification. *)
Inductive tag : Type :=
| TagSuccess
| TagEmptyResponse
| TagRateLimited
| TagOverloaded
| TagHttpError
| TagTimeout
| TagException.

Definition tag_of (o : outcome) : option tag :=
  match o with
  | Success _ => Some TagSuccess
  | EmptyResponse => Some TagEmptyResponse
  | NoChoices => None
  | RateLimited => Some TagRateLimited
  | Overloaded => Some TagOverloaded
  | HttpError _ => Some TagHttpError
  | TimedOut => Some TagTimeout
  | Exception _ => Some TagException
  end.

Section AboutACall.

Variable OPENROUTER_API_KEY : pystr.
Variable post : nat -> request -> post_result.
Variable input_text target_culture : pystr.
Variable max_attempts : Z.

Let models := slice_to FREE_MODELS max_attempts.
Let prompt := make_prompt input_text target_culture.
Let run :=
  smart_translate_humor OPENROUTER_API_KEY post input_text target_culture
                        max_attempts.

(** The call accepts [text] from [m] at position [i]: the first accepted
    attempt. *)
Definition accepted_at (i : nat) (m text : pystr) : Prop :=
  nth_error models i = Some m /\
  accepts (post i (make_request OPENROUTER_API_KEY prompt m)) text /\
  (forall j mj t, j < i -> nth_error models j = Some mj ->
     ~ accepts (post j (make_request OPENROUTER_API_KEY prompt mj)) t).

(** No attempt of the call is accepted. *)
Definition none_accepted : Prop :=
  forall i m text,
    nth_error models i = Some m ->
    ~ accepts (post i (make_request OPENROUTER_API_KEY prompt m)) text.

(** The [i]-th line of the log is the entry of model [m]. *)
Definition entry_at (log : list pystr) (i : nat) (m : pystr) : Prop :=
  exists line,
    nth_error log i = Some line /\
    startswith line (attempt_line i (model_name_of m)) = true.

(** The log after a call in which nothing is accepted, as worded: no
    text, no model, and exactly [max_attempts] entries, one per model in
    priority order. *)
Definition exhausted_log_as_worded : Prop :=
  none_accepted ->
  exists log,
    fst run = (None, None, log) /\
    length log = Z.to_nat max_attempts /\
    forall i m, nth_error models i = Some m -> entry_at log i m.

(** The log of any call, as worded: exactly one entry per model
    contacted, in contact order. *)
Definition one_entry_per_contact_as_worded : Prop :=
  length (log_of run) = length (contacted (trace_of run)) /\
  forall i m,
    nth_error (contacted (trace_of run)) i = Some m ->
    entry_at (log_of run) i m.

(** The entry of the attempt at position [i] on [m] carries the tag [t],
    for a way [read] of reading the tag of a line. *)
Definition entry_tagged (read : pystr -> option tag) (i : nat) (m : pystr)
    (t : tag) : Prop :=
  exists line,
    In line (log_of run) /\
    startswith line (attempt_line i (model_name_of m)) = true /\
    read line = Some t.

End AboutACall.

(** The tagging of the log, as worded: the tag of every attempt that is not
    accepted can be read off its entry in the returned log. *)
Definition log_tagged_as_worded (OPENROUTER_API_KEY : pystr) : Prop :=
  exists read : pystr -> option tag,
    forall post input_text target_culture max_attempts i m t,
      let prompt := make_prompt input_text target_culture in
      In (i, m) (attempted OPENROUTER_API_KEY post prompt
                   (enumerate (slice_to FREE_MODELS max_attempts))) ->
      tag_of (outcome_at OPENROUTER_API_KEY post prompt (i, m)) = Some t ->
      t <> TagSuccess ->
      entry_tagged OPENROUTER_API_KEY post input_text target_culture
                   max_attempts read i m t.

(** The short-circuit of the handler, as worded: with a source text or a
    target culture that is empty after trimming, no model is contacted. *)
Definition short_circuit_as_worded (OPENROUTER_API_KEY : pystr)
    (post : nat -> request -> post_result)
    (insert_execute : translation_row -> option exn) (sess : session)
    (input_text target_culture : pystr) (max_attempts : Z)
    (save_translation show_debug : bool) : Prop :=
  strip input_text = [] \/ strip target_culture = [] ->
  contacted (on_translate OPENROUTER_API_KEY post insert_execute sess
               input_text target_culture max_attempts
               save_translation show_debug) = [].

(* ================================================================== *)
(** ** Sample worlds *)
(* ================================================================== *)

Definition sample_key : pystr := u "sk-or-sample".

(** A body of the shape of the inference API, with [text] as content. *)
Definition body_with (text : pystr) : json :=
  JObj [(u "id", JStr (u "gen-1"));
        (u "choices",
         JArr [JObj [(u "message",
                      JObj [(u "role", JStr (u "assistant"));
                            (u "content", JStr text)])]])].

Definition chicken : pystr :=
  u "Why did the chicken cross the road? To avoid HR.".

(** Every request times out. *)
Definition post_timeout (_ : nat) (_ : request) : post_result :=
  PostRaises Timeout.

(** Every request is answered with the status [status]. *)
Definition post_status (status : Z) (_ : nat) (_ : request) : post_result :=
  PostReturns {| status_code := status; json_body := None |}.

(** The first request fails to connect, the next ones succeed. *)
Definition post_refused_then_ok (n : nat) (_ : request) : post_result :=
  match n with
  | 0 => PostRaises (RequestFailure (u "Connection refused"))
  | _ => PostReturns {| status_code := 200;
                        json_body := Some (body_with chicken) |}
  end.

(** The first request is rate limited, the next ones succeed. *)
Definition post_limited_then_ok (n : nat) (_ : request) : post_result :=
  match n with
  | 0 => PostReturns {| status_code := 429; json_body := None |}
  | _ => PostReturns {| status_code := 200;
                        json_body := Some (body_with chicken) |}
  end.

(** Every request succeeds. *)
Definition post_ok (_ : nat) (_ : request) : post_result :=
  PostReturns {| status_code := 200; json_body := Some (body_with chicken) |}.



(** Every request is answered 200 with the content ["ok"]. *)
Definition post_short (_ : nat) (_ : request) : post_result :=
  PostReturns {| status_code := 200; json_body := Some (body_with (u "ok")) |}.

Definition insert_ok (_ : translation_row) : option exn := None.

Definition sample_session : session :=
  {| supabase_client := true; user_email := Some (u "ann@example.org") |}.

Definition first_model : pystr :=
  u "mistralai/mistral-small-3.2-24b-instruct:free".

Definition second_model : pystr := u "meta-llama/llama-3-8b-instruct:free".

Definition sample_row : translation_row :=
  {| row_user_email := u "ann@example.org";
     original_text := u "joke";
     row_target_culture := u "German";
     translated_text := chicken;
     model_used := second_model |}.

(* ================================================================== *)
(** ** More notions about a call *)
(* ================================================================== *)

(** The events left when messages are shown for one model at most: the
    request and the warning of an empty response. *)
Definition quiet (e : event) : bool :=
  match e with
  | RequestsPost _ | StWarningEmpty _ => true
  | _ => false
  end.

(** Every request is answered 429 by the models before position [n], and
    accepted from there on. *)
Definition post_ok_from (n : nat) (i : nat) (_ : request) : post_result :=
  if i <? n
  then PostReturns {| status_code := 429; json_body := None |}
  else PostReturns {| status_code := 200;
                      json_body := Some (body_with chicken) |}.

(** The database refuses every insert. *)
Definition insert_refused (_ : translation_row) : option exn :=
  Some (RequestFailure (u "permission denied")).

(** The events that follow the last request of a trace. *)
Fixpoint after_last_request (tr : list event) : list event :=
  match tr with
  | [] => []
  | e :: tr' =>
      match contacted tr' with
      | _ :: _ => after_last_request tr'
      | [] =>
          match e with
          | RequestsPost _ => tr'
          | _ => after_last_request tr'
          end
      end
  end.

(* ================================================================== *)
(** ** Accounts, history and the page *)
(* ================================================================== *)

(** What [sign_in_with_password] returns: a response with its [user]
    ([None] where there is none). *)
Record auth_response : Type := {
  user : option pystr
}.

(** The dict stored under ["last_translation"]. *)
Record last_translation_entry : Type := {
  lt_original : pystr;
  lt_target : pystr;
  lt_translated : pystr;
  lt_model : option pystr
}.

(** The keys of [st.session_state] the script writes: ["logged_in"],
    ["user_email"], ["supabase_client"] (stored or not), ["show_history"]
    and ["last_translation"]; [None] and [false] where the key is
    absent. *)
Record session_state : Type := {
  logged_in : option bool;
  ss_user_email : option pystr;
  ss_supabase_client : bool;
  show_history : option bool;
  last_translation : option last_translation_entry
}.

(** [st.session_state.clear()] *)
Definition cleared : session_state :=
  {| logged_in := None;
     ss_user_email := None;
     ss_supabase_client := false;
     show_history := None;
     last_translation := None |}.

(** What [save_translation_to_db] reads of the session state. *)
Definition session_of (s : session_state) : session :=
  {| supabase_client := ss_supabase_client s;
     user_email := ss_user_email s |}.

(** The query [get_user_translations] builds:
    [table(...).select(...).eq("user_email", ...).order(..., desc=...)
    .limit(...)]. *)
Record history_query : Type := {
  q_table : pystr;
  q_select : pystr;
  q_user_email : pystr;
  q_order : pystr;
  q_desc : bool;
  q_limit : Z
}.

(** A row as the database returns it. *)
Record stored_row : Type := {
  saved : translation_row;
  created_at : option pystr
}.

(** The values of the widgets in one run of the script. The select box
    offers 1, 2 and 3. *)
Inductive models_to_try : Type := Try1 | Try2 | Try3.

Definition max_attempts_of (c : models_to_try) : Z :=
  match c with Try1 => 1 | Try2 => 2 | Try3 => 3 end.

Record form : Type := {
  login_email : pystr;
  login_password : pystr;
  signup_email : pystr;
  signup_password : pystr;
  f_input_text : pystr;
  f_target_culture : pystr;
  f_models : models_to_try;
  f_save_translation : bool;
  f_show_debug : bool
}.

(** The button pressed in one run, if any. *)
Inductive click : Type :=
| NoClick
| ClickLogin
| ClickSignUp
| ClickLogout
| ClickViewHistory
| ClickBack
| ClickTranslate.

(** The events of a run of the page: those of the translator, the calls to
    the account service and to the history table, and the messages of the
    page. Titles, input widgets, dividers and the tips, which show fixed
    text, are not recorded. *)
Inductive page_event : Type :=
| Translator (e : event)
| CreateClient
| AuthSignUp (email password : pystr)
| StSuccessAccountCreated
| StErrorSignup (e : exn)
| AuthSignIn (email password : pystr)
| StToastWelcome (email : pystr)
| StErrorInvalidCredentials
| StErrorLogin (e : exn)
| AuthSignOut
| StInfoLoggedOut
| StStop
| SelectExecute (q : history_query)
| StErrorHistory (e : exn)
| StSuccessLoggedInAs (email : pystr)
| StSubheaderHistory
| StExpander (i : nat) (row : stored_row)
| StInfoNoTranslations
| StWriteModel (i : nat) (model : pystr)
| StCaptionBackup (n : Z)
| StJsonLast (l : last_translation_entry)
| Uncaught (e : exn).

(** Truth value of [st.session_state.get("show_history")]. *)
Definition flag (o : option bool) : bool :=
  match o with Some b => b | None => false end.

(** The last translation a click of the translator stores, if it stores
    one. *)
Fixpoint stored_last (tr : list event) : option last_translation_entry :=
  match tr with
  | [] => None
  | SetLastTranslation o t x m :: tr' =>
      match stored_last tr' with
      | Some l => Some l
      | None => Some {| lt_original := o; lt_target := t;
                        lt_translated := x; lt_model := m |}
      end
  | _ :: tr' => stored_last tr'
  end.

(** What a page run holds of one kind, in order. *)
Definition collect {A} (pick : page_event -> option A)
    (tr : list page_event) : list A :=
  flat_map (fun e => match pick e with Some a => [a] | None => [] end) tr.

(** The models requested in a page run, in order. *)
Definition page_contacted : list page_event -> list pystr :=
  collect (fun e => match e with
                    | Translator (RequestsPost r) => Some (model r)
                    | _ => None
                    end).

(** The rows inserted in a page run. *)
Definition page_inserted : list page_event -> list translation_row :=
  collect (fun e => match e with
                    | Translator (TableInsert row) => Some row
                    | _ => None
                    end).

(** The queries of a page run. *)
Definition page_queries : list page_event -> list history_query :=
  collect (fun e => match e with
                    | SelectExecute q => Some q
                    | _ => None
                    end).

(** The exceptions that end a page run. *)
Definition page_uncaught : list page_event -> list exn :=
  collect (fun e => match e with
                    | Uncaught x => Some x
                    | _ => None
                    end).

Section Page.

Variable OPENROUTER_API_KEY : pystr.
Variable post : nat -> request -> post_result.
Variable insert_execute : translation_row -> option exn.

(** [create_client(SUPABASE_URL, SUPABASE_KEY)] returns a client ([None])
    or raises. *)
Variable create_client : option exn.

(** [client.auth.sign_up(...)] returns ([None]) or raises. *)
Variable sign_up : pystr -> pystr -> option exn.

(** [client.auth.sign_in_with_password(...)] *)
Variable sign_in_with_password :
  pystr -> pystr -> res (option auth_response).

(** The query of the history, executed. *)
Variable select_execute : history_query -> res (list stored_row).

(** [signup(email, password)]: the events of the call. *)
Definition signup (email password : pystr) : list page_event :=
  CreateClient ::
  match create_client with
  | Some e => [StErrorSignup e]
  | None =>
      AuthSignUp email password ::
      match sign_up email password with
      | Some e => [StErrorSignup e]
      | None => [StSuccessAccountCreated]
      end
  end.

(** [login(email, password)]: the session state after the call and its
    events. *)
Definition login (s : session_state) (email password : pystr)
  : session_state * list page_event :=
  match create_client with
  | Some e => (s, [CreateClient; StErrorLogin e])
  | None =>
      match sign_in_with_password email password with
      | Raise e =>
          (s, [CreateClient; AuthSignIn email password; StErrorLogin e])
      | Ok user_session =>
          if match user_session with
             | Some r => match user r with Some _ => true | None => false end
             | None => false
             end
          then
            ({| logged_in := Some true;
                ss_user_email := Some email;
                ss_supabase_client := true;
                show_history := show_history s;
                last_translation := last_translation s |},
             [CreateClient; AuthSignIn email password; StToastWelcome email])
          else
            (s, [CreateClient; AuthSignIn email password;
                 StErrorInvalidCredentials])
      end
  end.

(** [logout()]: an exception of [sign_out] is passed over, the state is
    cleared and the run stops. *)
Definition logout (s : session_state) : session_state * list page_event :=
  (cleared,
   (if ss_supabase_client s then [AuthSignOut] else [])
     ++ [StInfoLoggedOut; StStop]).

(** [get_user_translations()]: the list returned and the events. *)
Definition get_user_translations (s : session_state)
  : list stored_row * list page_event :=
  if ss_supabase_client s then
    match ss_user_email s with
    | None => ([], [StErrorHistory KeyError])
    | Some email =>
        let q := {| q_table := u "humor_translations";
                    q_select := u "*";
                    q_user_email := email;
                    q_order := u "created_at";
                    q_desc := true;
                    q_limit := 10 |} in
        match select_execute q with
        | Ok data => (data, [SelectExecute q])
        | Raise e => ([], [SelectExecute q; StErrorHistory e])
        end
    end
  else ([], []).

(** The block under [if st.session_state.get("show_history")]. *)
Definition history_view (s : session_state) (c : click)
  : session_state * list page_event :=
  match get_user_translations s with
  | (translations, events) =>
      (match c with
       | ClickBack =>
           {| logged_in := logged_in s;
              ss_user_email := ss_user_email s;
              ss_supabase_client := ss_supabase_client s;
              show_history := Some false;
              last_translation := last_translation s |}
       | _ => s
       end,
       StSubheaderHistory :: events ++
       match translations with
       | [] => [StInfoNoTranslations]
       | _ :: _ =>
           map (fun ir => StExpander (fst ir) (snd ir))
               (enumerate translations)
       end)
  end.

(** The block under [if not st.session_state.get("show_history")]: the
    handler of the Translate button, then the debug information. *)
Definition translator_view (s : session_state) (f : form) (c : click)
  : session_state * list page_event :=
  let clicked :=
    match c with
    | ClickTranslate =>
        on_translate OPENROUTER_API_KEY post insert_execute (session_of s)
                     (f_input_text f) (f_target_culture f)
                     (max_attempts_of (f_models f))
                     (f_save_translation f) (f_show_debug f)
    | _ => []
    end in
  let s' :=
    match stored_last clicked with
    | Some l =>
        {| logged_in := logged_in s;
           ss_user_email := ss_user_email s;
           ss_supabase_client := ss_supabase_client s;
           show_history := show_history s;
           last_translation := Some l |}
    | None => s
    end in
  (s',
   map Translator clicked ++
   if f_show_debug f then
     map (fun im => StWriteModel (fst im) (snd im))
         (enumerate (slice_to FREE_MODELS 5))
     ++ [StCaptionBackup (Z.of_nat (length FREE_MODELS) - 5)]
     ++ match last_translation s' with
        | Some l => [StJsonLast l]
        | None => []
        end
   else []).

(** One run of the script below the title: the account forms while
    ["logged_in"] is absent, the main page otherwise. *)
Definition page (s : session_state) (f : form) (c : click)
  : session_state * list page_event :=
  match logged_in s with
  | None =>
      match c with
      | ClickLogin => login s (login_email f) (login_password f)
      | ClickSignUp => (s, signup (signup_email f) (signup_password f))
      | _ => (s, [])
      end
  | Some _ =>
      match ss_user_email s with
      | None => (s, [Uncaught KeyError])
      | Some email =>
          match c with
          | ClickLogout =>
              match logout s with
              | (s', events) => (s', StSuccessLoggedInAs email :: events)
              end
          | _ =>
              let s1 :=
                match c with
                | ClickViewHistory =>
                    {| logged_in := logged_in s;
                       ss_user_email := ss_user_email s;
                       ss_supabase_client := ss_supabase_client s;
                       show_history := Some true;
                       last_translation := last_translation s |}
                | _ => s
                end in
              match (if flag (show_history s1) then history_view s1 c
                     else (s1, [])) with
              | (s2, history) =>
                  match (if negb (flag (show_history s2))
                         then translator_view s2 f c
                         else (s2, [])) with
                  | (s3, translator) =>
                      (s3, StSuccessLoggedInAs email
                             :: history ++ translator)
                  end
              end
          end
      end
  end.

End Page.

(** Sample worlds of the page. *)
Definition sign_in_ok (_ _ : pystr) : res (option auth_response) :=
  Ok (Some {| user := Some (u "user-1") |}).

Definition sign_in_refused (_ _ : pystr) : res (option auth_response) :=
  Raise (RequestFailure (u "Invalid login credentials")).

Definition sign_up_ok (_ _ : pystr) : option exn := None.

Definition select_none (_ : history_query) : res (list stored_row) := Ok [].

Definition sample_form : form :=
  {| login_email := u "ann@example.org";
     login_password := u "secret";
     signup_email := [];
     signup_password := [];
     f_input_text := u "joke";
     f_target_culture := u "German";
     f_models := Try3;
     f_save_translation := true;
     f_show_debug := false |}.

Definition logged_in_state : session_state :=
  {| logged_in := Some true;
     ss_user_email := Some (u "ann@example.org");
     ss_supabase_client := true;
     show_history := None;
     last_translation := None |}.

(** The keys set together at login are present together: a state with
    ["logged_in"] also holds the e-mail and the client. *)
Definition consistent (s : session_state) : Prop :=
  logged_in s <> None ->
  ss_user_email s <> None /\ ss_supabase_client s = true.

(** The account service accepts the credentials: a client is created and
    the sign-in returns a response with a user. *)
Definition credentials_accepted (create_client : option exn)
    (sign_in_with_password : pystr -> pystr -> res (option auth_response))
    (email password : pystr) : Prop :=
  create_client = None /\
  exists r uid,
    sign_in_with_password email password = Ok (Some r) /\
    user r = Some uid.


Definition history_state : session_state :=
  {| logged_in := Some true;
     ss_user_email := Some (u "ann@example.org");
     ss_supabase_client := true;
     show_history := Some true;
     last_translation := None |}.

(** More samples. *)
Definition joke_prompt : pystr := make_prompt (u "joke") (u "German").

Definition first_request : request :=
  make_request sample_key joke_prompt first_model.


Definition no_client : option exn := None.

Definition sample_page :=
  page sample_key post_ok insert_ok no_client sign_up_ok sign_in_ok
       select_none.

(* ================================================================== *)
(** ** The string operations on samples *)
(* ================================================================== *)

Example strip_ok : strip (u "  ok  ") = u "ok".
Proof. reflexivity. Qed.

Example split_model :
  last (split 47 (u "google/gemma-7b-it:free")) [] = u "gemma-7b-it:free".
Proof. reflexivity. Qed.

Example str_of_int_429 : str_of_int 429 = u "429".
Proof. reflexivity. Qed.

Example slice_negative : slice_to [1; 2; 3; 4] (-1) = [1; 2; 3].
Proof. reflexivity. Qed.

(* ================================================================== *)
(** ** One turn of the loop *)
(* ================================================================== *)

Lemma py_in_no_timeout key data : py_in key data <> Raise Timeout.
Proof. destruct data; simpl; discriminate. Qed.

Lemma getitem_key_no_timeout x key : getitem_key x key <> Raise Timeout.
Proof.
  destruct x; simpl; try discriminate.
  destruct (dict_get d key); discriminate.
Qed.

Lemma getitem_0_no_timeout x : getitem_0 x <> Raise Timeout.
Proof. destruct x as [| | | | [|]| [|] |]; simpl; discriminate. Qed.

Lemma content_of_no_timeout (data : json) : content_of data <> Raise Timeout.
Proof.
  unfold content_of.
  pose proof (py_in_no_timeout (u "choices") data) as H1.
  destruct (py_in (u "choices") data) as [[|]|e]; try congruence.
  pose proof (getitem_key_no_timeout data (u "choices")) as H2.
  destruct (getitem_key data (u "choices")) as [choices|e]; try congruence.
  pose proof (getitem_0_no_timeout choices) as H3.
  destruct (getitem_0 choices) as [choice|e]; try congruence.
  pose proof (getitem_key_no_timeout choice (u "message")) as H4.
  destruct (getitem_key choice (u "message")) as [message|e]; try congruence.
  pose proof (getitem_key_no_timeout message (u "content")) as H5.
  destruct (getitem_key message (u "content")) as [[]|e]; congruence.
Qed.

Lemma check_response_200 k m name resp data s :
  status_code resp = 200%Z -> json_body resp = Some data ->
  check_response k m name resp s =
  match content_of data with
  | Raise e => (Raise e, s)
  | Ok None => (Ok None, s)
  | Ok (Some t) =>
      if (10 <? len (strip t))%Z
      then (Ok (Some (t, m)), add_events s (shown k (StSuccessWith name)))
      else (Ok None, add_events s [StWarningEmpty name])
  end.
Proof.
  intros Hs Hb. destruct s as [att tr].
  unfold check_response, response_json, content_of, add_events, shown.
  rewrite Hs, Hb. simpl Z.eqb. cbv iota.
  unfold bind, lift, ret, raise, when, emit.
  destruct (py_in (u "choices") data) as [[|]|e]; try reflexivity.
  destruct (getitem_key data (u "choices")) as [choices|e]; try reflexivity.
  destruct (getitem_0 choices) as [choice|e]; try reflexivity.
  destruct (getitem_key choice (u "message")) as [message|e]; try reflexivity.
  destruct (getitem_key message (u "content")) as [[]|e]; try reflexivity.
  destruct (10 <? len (strip s))%Z; [|reflexivity].
  destruct (1 <? k)%Z; simpl; rewrite ?app_nil_r; reflexivity.
Qed.

Section OneAttempt.

Variable OPENROUTER_API_KEY : pystr.
Variable post : nat -> request -> post_result.
Variable max_attempts : Z.
Variable prompt : pystr.

Let outcome_of := outcome_at OPENROUTER_API_KEY post prompt.
Let lines_of := lines_at OPENROUTER_API_KEY post prompt.
Let events_of := events_at OPENROUTER_API_KEY post max_attempts prompt.
Let pair_of := accepted_pair OPENROUTER_API_KEY post prompt.

(** One turn only appends: to [attempts] the lines of the attempt, to the
    trace its events, both fixed by the class of what the request met. *)
Lemma iteration_spec (i : nat) (model : pystr) (s : state) :
  iteration OPENROUTER_API_KEY post max_attempts prompt i model s =
  (pair_of (i, model),
   {| attempts := attempts s ++ lines_of (i, model);
      trace := trace s ++ events_of (i, model) |}).
Proof.
  destruct s as [att tr].
  unfold pair_of, lines_of, events_of, outcome_of,
    accepted_pair, lines_at, events_at, outcome_at.
  unfold iteration, try_body, requests_post, log_lines, events_after.
  cbn [fst snd].
  set (name := model_name_of model).
  set (req := make_request OPENROUTER_API_KEY prompt model).
  set (line := attempt_line i name).
  set (line_timeout := line ++ u " - Timeout").
  set (line_error := line ++ u " - Error").
  clearbody name req line line_timeout line_error.
  unfold bind at 1 2 3 4. unfold attempts_append at 1. cbn [attempts trace].
  unfold shown, pause, when, emit, ret, raise.
  destruct (post i req) as [e | resp] eqn:Hpost; cbn [classify].
  - destruct e; destruct (1 <? max_attempts)%Z;
      cbn [bind attempts_append attempts trace app];
      unfold bind, attempts_append; cbn [attempts trace];
      rewrite <- ?app_assoc; cbn [app]; rewrite ?app_nil_r; reflexivity.
  - unfold bind at 1.
    destruct (status_code resp =? 200)%Z eqn:Hst.
    + apply Z.eqb_eq in Hst.
      destruct (json_body resp) as [data|] eqn:Hbody.
      * assert (Hc := fun s => @check_response_200 max_attempts model name
                                 resp data s Hst Hbody).
        pose proof (content_of_no_timeout data) as Hnt.
        destruct (1 <? max_attempts)%Z eqn:Hk; cbn [attempts trace];
          rewrite Hc; unfold add_events, shown; rewrite ?Hk;
          destruct (content_of data) as [[text|]|e];
          repeat match goal with
            | |- context [(10 <? len (strip ?t))%Z] =>
                destruct (10 <? len (strip t))%Z
            | |- context [(Z.of_nat i <? max_attempts - 1)%Z] =>
                destruct (Z.of_nat i <? max_attempts - 1)%Z
            end;
          try (destruct e; try congruence);
          unfold bind, attempts_append; cbn [attempts trace];
          rewrite <- ?app_assoc; cbn [app]; rewrite ?app_nil_r;
          reflexivity.
      * unfold check_response, response_json. rewrite Hst, Hbody.
        destruct (1 <? max_attempts)%Z; cbn;
          rewrite <- ?app_assoc; cbn [app]; rewrite ?app_nil_r;
          reflexivity.
    + unfold check_response, error_msg_of. rewrite Hst. cbv zeta.
      destruct (status_code resp =? 429)%Z;
        [| destruct (status_code resp =? 503)%Z ];
        destruct (1 <? max_attempts)%Z;
        destruct (Z.of_nat i <? max_attempts - 1)%Z;
        cbn; rewrite <- ?app_assoc; cbn [app]; rewrite ?app_nil_r;
        reflexivity.
Qed.

End OneAttempt.

(* ================================================================== *)
(** ** The whole loop *)
(* ================================================================== *)

Lemma contacted_app (a b : list event) :
  contacted (a ++ b) = contacted a ++ contacted b.
Proof.
  induction a as [|e a IH]; [reflexivity|].
  destruct e; simpl; rewrite IH; reflexivity.
Qed.

Lemma sleeps_app (a b : list event) : sleeps (a ++ b) = sleeps a ++ sleeps b.
Proof.
  induction a as [|e a IH]; [reflexivity|].
  destruct e; simpl; rewrite IH; reflexivity.
Qed.

Lemma inserted_app (a b : list event) :
  inserted (a ++ b) = inserted a ++ inserted b.
Proof.
  induction a as [|e a IH]; [reflexivity|].
  destruct e; simpl; rewrite IH; reflexivity.
Qed.

Lemma contacted_events_after k i name o :
  contacted (events_after k i name o) = [].
Proof.
  unfold events_after, shown, pause.
  destruct o; destruct (1 <? k)%Z; destruct (Z.of_nat i <? k - 1)%Z;
    reflexivity.
Qed.

Lemma inserted_events_after k i name o :
  inserted (events_after k i name o) = [].
Proof.
  unfold events_after, shown, pause.
  destruct o; destruct (1 <? k)%Z; destruct (Z.of_nat i <? k - 1)%Z;
    reflexivity.
Qed.

Section WholeLoop.

Variable OPENROUTER_API_KEY : pystr.
Variable post : nat -> request -> post_result.
Variable max_attempts : Z.
Variable prompt : pystr.

Let outcome_of := outcome_at OPENROUTER_API_KEY post prompt.
Let lines_of := lines_at OPENROUTER_API_KEY post prompt.
Let events_of := events_at OPENROUTER_API_KEY post max_attempts prompt.
Let attempts_made := attempted OPENROUTER_API_KEY post prompt.
Let first_accept := first_success OPENROUTER_API_KEY post prompt.

(** The loop returns the first success, with the lines and the events of
    the attempts made. *)
Lemma for_loop_spec (ims : list (nat * pystr)) (s : state) :
  for_loop OPENROUTER_API_KEY post max_attempts prompt ims s =
  ((option_map fst (first_accept ims),
    option_map snd (first_accept ims),
    attempts s ++ flat_map lines_of (attempts_made ims)),
   trace s ++ flat_map events_of (attempts_made ims)).
Proof.
  revert s. induction ims as [|[i m] rest IH]; intro s.
  - simpl. rewrite !app_nil_r. reflexivity.
  - cbn [for_loop]. rewrite iteration_spec.
    unfold accepted_pair, first_accept, attempts_made.
    cbn [first_success attempted snd].
    fold outcome_of. fold first_accept. fold attempts_made.
    destruct (outcome_of (i, m)) eqn:Ho; cbn [is_success];
      try (rewrite IH; cbn [attempts trace flat_map];
           fold lines_of; fold events_of;
           rewrite <- !app_assoc; reflexivity).
    cbn [option_map fst snd attempts trace flat_map].
    fold lines_of. fold events_of. rewrite !app_nil_r. reflexivity.
Qed.

Lemma contacted_events_at (l : list (nat * pystr)) :
  contacted (flat_map events_of l) = map snd l.
Proof.
  induction l as [|im l IH]; [reflexivity|].
  cbn [flat_map map]. rewrite contacted_app, IH.
  unfold events_of, events_at.
  rewrite contacted_app. cbn [contacted].
  rewrite contacted_events_after.
  unfold shown. destruct (1 <? max_attempts)%Z; reflexivity.
Qed.

Lemma inserted_events_at (l : list (nat * pystr)) :
  inserted (flat_map events_of l) = [].
Proof.
  induction l as [|im l IH]; [reflexivity|].
  cbn [flat_map]. rewrite inserted_app, IH.
  unfold events_of, events_at.
  rewrite inserted_app. cbn [inserted].
  rewrite inserted_events_after.
  unfold shown. destruct (1 <? max_attempts)%Z; reflexivity.
Qed.

(** One line per attempt, and one more where the attempt raised. *)
Lemma length_lines_at (l : list (nat * pystr)) :
  length (flat_map lines_of l) =
  length l + length (filter (fun im => raised (outcome_of im)) l).
Proof.
  induction l as [|im l IH]; [reflexivity|].
  cbn [flat_map filter]. rewrite length_app, IH.
  unfold lines_of, lines_at, log_lines. fold outcome_of.
  destruct (outcome_of im); cbn [raised length]; lia.
Qed.

(** The attempts made are a prefix of the models given. *)
Lemma attempted_prefix (ims : list (nat * pystr)) :
  attempts_made ims = firstn (length (attempts_made ims)) ims.
Proof.
  induction ims as [|im rest IH]; [reflexivity|].
  unfold attempts_made in *. cbn [attempted].
  destruct (is_success _).
  - reflexivity.
  - cbn [length firstn]. rewrite <- IH. reflexivity.
Qed.

Lemma attempted_length (ims : list (nat * pystr)) :
  length (attempts_made ims) <= length ims.
Proof.
  induction ims as [|im rest IH]; [apply Nat.le_refl|].
  unfold attempts_made in *. cbn [attempted].
  destruct (is_success _); cbn [length]; lia.
Qed.

(** Without a success every model is attempted. *)
Lemma no_success_all (ims : list (nat * pystr)) :
  (forall im, In im ims -> is_success (outcome_of im) = false) ->
  first_accept ims = None /\ attempts_made ims = ims.
Proof.
  induction ims as [|im rest IH]; intro H; [split; reflexivity|].
  unfold first_accept, attempts_made in *.
  cbn [first_success attempted].
  fold outcome_of.
  pose proof (H im (or_introl eq_refl)) as Him.
  destruct IH as [IH1 IH2]; [intros x Hx; apply H; right; exact Hx|].
  rewrite Him, IH2. split; [|reflexivity].
  destruct (outcome_of im); try discriminate; exact IH1.
Qed.

(** A success is returned exactly when some position succeeds and none
    before it does; the attempts made then stop at that position. *)
Lemma first_success_iff (ims : list (nat * pystr)) (text m : pystr) :
  first_accept ims = Some (text, m) <->
  exists n i,
    nth_error ims n = Some (i, m) /\
    outcome_of (i, m) = Success text /\
    (forall j x, j < n -> nth_error ims j = Some x ->
                 is_success (outcome_of x) = false).
Proof.
  induction ims as [|im rest IH].
  - split; [discriminate|]. intros (n & i & H & _). destruct n; discriminate.
  - unfold first_accept in *. cbn [first_success].
    fold outcome_of. split.
    + intro H. destruct (outcome_of im) eqn:Ho;
        try (apply IH in H; destruct H as (n & i & Hn & Hs & Hb);
             exists (S n), i; split; [exact Hn|]; split; [exact Hs|];
             intros [|j] x Hj Hx;
             [ injection Hx as <-; rewrite Ho; reflexivity
             | apply (Hb j x); [lia | exact Hx] ]).
      injection H as <- <-. destruct im as [i m0]. exists 0, i.
      split; [reflexivity|]. split; [exact Ho|]. intros j x Hj. lia.
    + intros (n & i & Hn & Hs & Hb). destruct n as [|n].
      * injection Hn as ->. rewrite Hs. reflexivity.
      * pose proof (Hb 0 im (Nat.lt_0_succ n) eq_refl) as H0.
        assert (Hr : first_success OPENROUTER_API_KEY post prompt
                       rest = Some (text, m)).
        { apply IH. exists n, i. split; [exact Hn|]. split; [exact Hs|].
          intros j x Hj Hx. apply (Hb (S j) x); [lia | exact Hx]. }
        destruct (outcome_of im); try discriminate; exact Hr.
Qed.

Lemma attempted_until (ims : list (nat * pystr)) (n : nat) x :
  nth_error ims n = Some x -> is_success (outcome_of x) = true ->
  (forall j y, j < n -> nth_error ims j = Some y ->
               is_success (outcome_of y) = false) ->
  attempts_made ims = firstn (S n) ims.
Proof.
  revert n. induction ims as [|im rest IH]; intros n Hn Hs Hb.
  - destruct n; discriminate.
  - unfold attempts_made in *. cbn [attempted]. fold outcome_of.
    destruct n as [|n].
    + injection Hn as ->. rewrite Hs. reflexivity.
    + rewrite (Hb 0 im (Nat.lt_0_succ n) eq_refl).
      cbn [firstn]. f_equal. apply IH; [exact Hn | exact Hs |].
      intros j y Hj Hy. apply (Hb (S j) y); [lia | exact Hy].
Qed.

End WholeLoop.

(* ================================================================== *)
(** ** Acceptance, enumeration and the model list *)
(* ================================================================== *)

(** The lookups of the source reach a content exactly on the bodies of the
    shape [choices[0].message.content]. *)
Lemma content_of_generated (data : json) (text : pystr) :
  content_of data = Ok (Some text) <-> generated_content data = Some text.
Proof.
  unfold content_of, generated_content.
  destruct data as [| b | z | a b | s | l | d]; cbn [py_in getitem_key];
    try (split; discriminate).
  - destruct (str_contains s (u "choices")); split; discriminate.
  - destruct (existsb _ l); split; discriminate.
  - destruct (dict_get d (u "choices")) as [choices|];
      [| split; discriminate].
    destruct choices as [| b | z | a b | [|c s] | [|choice l] | d'];
      cbn [getitem_0 getitem_key]; try (split; discriminate).
    destruct choice as [| b | z | a b | s | l' | c]; cbn [getitem_key];
      try (split; discriminate).
    destruct (dict_get c (u "message")) as [message|];
      [| split; discriminate].
    destruct message as [| b | z | a b | s | l' | m]; cbn [getitem_key];
      try (split; discriminate).
    destruct (dict_get m (u "content")) as [[| b | z | a b | s | l' | m']|];
      try (split; discriminate).
    split; intro H; injection H as <-; reflexivity.
Qed.

(** An attempt is classed as a success exactly when it is accepted in the
    words of the specification. *)
Lemma classify_success (r : post_result) (text : pystr) :
  classify r = Success text <-> accepts r text.
Proof.
  unfold accepts. split.
  - destruct r as [e | resp]; cbn [classify].
    + destruct e; discriminate.
    + destruct (status_code resp =? 200)%Z eqn:Hst.
      * apply Z.eqb_eq in Hst.
        destruct (json_body resp) as [data|] eqn:Hb; [|discriminate].
        destruct (content_of data) as [[t|]|e] eqn:Hc; try discriminate.
        destruct (10 <? len (strip t))%Z eqn:Hl; [|discriminate].
        intro H. injection H as <-. exists resp, data.
        repeat split; try assumption.
        -- apply content_of_generated. exact Hc.
        -- apply Z.ltb_lt. exact Hl.
      * destruct (status_code resp =? 429)%Z;
          [| destruct (status_code resp =? 503)%Z]; discriminate.
  - intros (resp & data & -> & Hst & Hb & Hg & Hl). cbn [classify].
    rewrite Hst, Hb. cbn [Z.eqb Pos.eqb].
    apply content_of_generated in Hg. rewrite Hg.
    apply Z.ltb_lt in Hl. rewrite Hl. reflexivity.
Qed.

Lemma not_accepted_not_success (r : post_result) :
  (forall text, ~ accepts r text) <-> is_success (classify r) = false.
Proof.
  split.
  - intro H. destruct (classify r) eqn:Hc; try reflexivity.
    exfalso. apply (H text). apply classify_success. exact Hc.
  - intros H text Ha. apply classify_success in Ha. rewrite Ha in H.
    discriminate.
Qed.

Lemma nth_error_combine_seq {A} (l : list A) (a n i : nat) (x : A) :
  nth_error (combine (seq a (length l)) l) n = Some (i, x) <->
  i = a + n /\ nth_error l n = Some x.
Proof.
  revert a n. induction l as [|y l IH]; intros a n; cbn [length seq combine].
  - destruct n; split; try discriminate; intros [_ H]; discriminate.
  - destruct n as [|n]; cbn [nth_error].
    + split.
      * intro H. injection H as <- <-. split; [lia | reflexivity].
      * intros [-> H]. injection H as <-. rewrite Nat.add_0_r. reflexivity.
    + rewrite IH. split; intros [-> H]; (split; [lia | exact H]).
Qed.

Lemma nth_error_enumerate {A} (l : list A) (n i : nat) (x : A) :
  nth_error (enumerate l) n = Some (i, x) <-> i = n /\ nth_error l n = Some x.
Proof. unfold enumerate. rewrite nth_error_combine_seq. reflexivity. Qed.

Lemma map_snd_combine_seq {A} (l : list A) (a : nat) :
  map snd (combine (seq a (length l)) l) = l.
Proof.
  revert a. induction l as [|y l IH]; intro a; [reflexivity|].
  cbn [length seq combine map snd]. rewrite IH. reflexivity.
Qed.

Lemma map_snd_enumerate {A} (l : list A) : map snd (enumerate l) = l.
Proof. apply map_snd_combine_seq. Qed.

Lemma length_enumerate {A} (l : list A) : length (enumerate l) = length l.
Proof.
  rewrite <- (map_snd_enumerate l) at 2. rewrite length_map. reflexivity.
Qed.

Lemma firstn_combine_seq {A} (l : list A) (a n : nat) :
  firstn n (combine (seq a (length l)) l) =
  combine (seq a (length (firstn n l))) (firstn n l).
Proof.
  revert a n. induction l as [|y l IH]; intros a n.
  - destruct n; reflexivity.
  - destruct n as [|n]; [reflexivity|].
    cbn [length seq combine firstn]. rewrite IH. reflexivity.
Qed.

Lemma firstn_enumerate {A} (l : list A) (n : nat) :
  firstn n (enumerate l) = enumerate (firstn n l).
Proof. apply firstn_combine_seq. Qed.

Lemma firstn_succ_nth {A} (l : list A) (n : nat) (x : A) :
  nth_error l n = Some x -> firstn (S n) l = firstn n l ++ [x].
Proof.
  revert n. induction l as [|y l IH]; intros n H.
  - destruct n; discriminate.
  - destruct n as [|n].
    + injection H as ->. reflexivity.
    + cbn [firstn app]. cbn [firstn] in IH. rewrite (IH n H). reflexivity.
Qed.

Lemma NoDup_firstn {A} (l : list A) (n : nat) :
  NoDup l -> NoDup (firstn n l).
Proof.
  intro H. rewrite <- (firstn_skipn n l) in H.
  exact (NoDup_app_remove_r _ _ H).
Qed.

Lemma length_slice_to_le {A} (l : list A) (k : Z) :
  (0 <= k)%Z -> (Z.of_nat (length (slice_to l k)) <= k)%Z.
Proof.
  intro Hk. unfold slice_to.
  destruct (k <? 0)%Z eqn:Hneg; [apply Z.ltb_lt in Hneg; lia|].
  rewrite length_firstn. lia.
Qed.

Lemma length_slice_to_exact {A} (l : list A) (k : Z) :
  (0 <= k <= Z.of_nat (length l))%Z -> length (slice_to l k) = Z.to_nat k.
Proof.
  intro Hk. unfold slice_to.
  destruct (k <? 0)%Z eqn:Hneg; [apply Z.ltb_lt in Hneg; lia|].
  rewrite length_firstn. lia.
Qed.

Lemma NoDup_slice_to {A} (l : list A) (k : Z) :
  NoDup l -> NoDup (slice_to l k).
Proof.
  intro H. unfold slice_to. destruct (k <? 0)%Z; apply NoDup_firstn; exact H.
Qed.

(** The priority list names no model twice. *)
Lemma FREE_MODELS_NoDup : NoDup FREE_MODELS.
Proof.
  pose proof (NoDup_nodup (list_eq_dec N.eq_dec) FREE_MODELS) as H.
  assert (E : nodup (list_eq_dec N.eq_dec) FREE_MODELS = FREE_MODELS)
    by (vm_compute; reflexivity).
  rewrite E in H. exact H.
Qed.

Lemma in_inserted (tr : list event) (row : translation_row) :
  In (TableInsert row) tr -> In row (inserted tr).
Proof.
  induction tr as [|e tr IH]; [intros []|].
  intros [-> | H]; [left; reflexivity|].
  destruct e; cbn [inserted]; try (apply IH; exact H).
  right. apply IH. exact H.
Qed.

Lemma filter_none {A} (f : A -> bool) (l : list A) :
  (forall x, In x l -> f x = false) -> filter f l = [].
Proof.
  induction l as [|x l IH]; intro H; [reflexivity|].
  cbn [filter]. rewrite (H x (or_introl eq_refl)).
  apply IH. intros y Hy. apply H. right. exact Hy.
Qed.

(* ================================================================== *)
(** ** The sequencer as a whole *)
(* ================================================================== *)

Section Call.

Variable OPENROUTER_API_KEY : pystr.
Variable post : nat -> request -> post_result.
Variable input_text target_culture : pystr.
Variable max_attempts : Z.

Let models := slice_to FREE_MODELS max_attempts.
Let prompt := make_prompt input_text target_culture.
Let req := make_request OPENROUTER_API_KEY prompt.
Let run :=
  smart_translate_humor OPENROUTER_API_KEY post input_text target_culture
                        max_attempts.
Let outcome_of := outcome_at OPENROUTER_API_KEY post prompt.
Let lines_of := lines_at OPENROUTER_API_KEY post prompt.
Let events_of := events_at OPENROUTER_API_KEY post max_attempts prompt.
Let attempts_made := attempted OPENROUTER_API_KEY post prompt.
Let first_accept := first_success OPENROUTER_API_KEY post prompt.
Let accepted_in :=
  accepted_at OPENROUTER_API_KEY post input_text target_culture max_attempts.

Lemma run_spec :
  run =
  ((option_map fst (first_accept (enumerate models)),
    option_map snd (first_accept (enumerate models)),
    flat_map lines_of (attempts_made (enumerate models))),
   flat_map events_of (attempts_made (enumerate models))).
Proof.
  unfold run, smart_translate_humor. rewrite for_loop_spec. reflexivity.
Qed.

Lemma first_success_accepted (text m : pystr) :
  first_accept (enumerate models) = Some (text, m) <->
  exists i, accepted_in i m text.
Proof.
  unfold first_accept. rewrite first_success_iff. split.
  - intros (n & i & Hn & Hs & Hb).
    apply nth_error_enumerate in Hn. destruct Hn as [-> Hn].
    exists n. split; [exact Hn|]. split.
    + apply classify_success. exact Hs.
    + intros j mj t Hj Hmj.
      apply not_accepted_not_success.
      apply (Hb j (j, mj) Hj).
      apply nth_error_enumerate. split; [reflexivity | exact Hmj].
  - intros (i & Hn & Ha & Hb). exists i, i. split.
    + apply nth_error_enumerate. split; [reflexivity | exact Hn].
    + split; [apply classify_success; exact Ha|].
      intros j [j' mj] Hj Hx.
      apply nth_error_enumerate in Hx. destruct Hx as [-> Hx].
      apply not_accepted_not_success.
      intros t. exact (Hb j mj t Hj Hx).
Qed.

(** The log and the trace of a call that accepts at position [i]. *)
Lemma accepted_log_trace (i : nat) (m text : pystr) :
  accepted_in i m text ->
  flat_map lines_of (attempts_made (enumerate models)) =
    flat_map lines_of (firstn i (enumerate models))
      ++ [attempt_line i (model_name_of m)] /\
  flat_map events_of (attempts_made (enumerate models)) =
    flat_map events_of (firstn i (enumerate models))
      ++ shown max_attempts (StWriteTrying (model_name_of m))
      ++ RequestsPost (req m)
      :: shown max_attempts (StSuccessWith (model_name_of m)).
Proof.
  intros (Hn & Ha & Hb).
  assert (Hi : nth_error (enumerate models) i = Some (i, m))
    by (apply nth_error_enumerate; split; [reflexivity | exact Hn]).
  apply classify_success in Ha.
  assert (Ho : outcome_of (i, m) = Success text) by exact Ha.
  assert (Hat : attempts_made (enumerate models)
                = firstn (S i) (enumerate models)).
  { apply attempted_until with (x := (i, m)); [exact Hi | |].
    - change (is_success (outcome_of (i, m)) = true).
      rewrite Ho. reflexivity.
    - intros j [j' mj] Hj Hx.
      apply nth_error_enumerate in Hx. destruct Hx as [-> Hx].
      apply not_accepted_not_success. intro t. exact (Hb j mj t Hj Hx). }
  rewrite Hat, (firstn_succ_nth _ _ Hi), !flat_map_app.
  cbn [flat_map]. rewrite !app_nil_r.
  unfold lines_of at 2, events_of at 2.
  unfold lines_at, events_at.
  fold outcome_of. rewrite Ho. split; reflexivity.
Qed.

(** C1. An attempt is accepted if and only if its status is 200, its body
    parses and holds generated content, and the trimmed content is longer
    than 10 characters: the call returns a text and a model exactly when
    some model of the list is so accepted and none before it is, and it
    then returns at once, with that model's content as it came, that
    model's identifier, and the log of the attempts so far, the accepted
    one included; the trace ends with the accepted request and its
    success message. A text whose trimmed length is 10 or less is never
    returned. *)
Theorem accept_iff_valid_content (text m : pystr) (log : list pystr)
    (tr : list event) :
  (run = ((Some text, Some m, log), tr) <->
   exists i,
     accepted_in i m text /\
     log = flat_map lines_of (firstn i (enumerate models))
             ++ [attempt_line i (model_name_of m)] /\
     tr = flat_map events_of (firstn i (enumerate models))
            ++ shown max_attempts (StWriteTrying (model_name_of m))
            ++ RequestsPost (req m)
            :: shown max_attempts (StSuccessWith (model_name_of m)))
  /\ (forall used, run = ((Some text, used, log), tr) ->
                   (10 < len (strip text))%Z).
Proof.
  rewrite run_spec. split; [split|].
  - intro H.
    destruct (first_accept (enumerate models)) as [[t m']|] eqn:Hf;
      [|discriminate].
    cbn [option_map fst snd] in H. injection H as -> -> <- <-.
    apply first_success_accepted in Hf. destruct Hf as [i Hi].
    exists i. split; [exact Hi|]. apply (accepted_log_trace Hi).
  - intros (i & Hi & -> & ->).
    destruct (accepted_log_trace Hi) as [-> ->].
    assert (Hf : first_accept (enumerate models) = Some (text, m))
      by (apply first_success_accepted; exists i; exact Hi).
    rewrite Hf. reflexivity.
  - intros used H.
    destruct (first_accept (enumerate models)) as [[t m']|] eqn:Hf;
      [|discriminate].
    cbn [option_map fst snd] in H. injection H as -> _ _ _.
    apply first_success_accepted in Hf.
    destruct Hf as (i & _ & (resp & data & _ & _ & _ & _ & Hl) & _).
    exact Hl.
Qed.

Lemma attempted_contacted :
  contacted (trace_of run)
    = firstn (length (attempts_made (enumerate models))) models /\
  attempts_made (enumerate models) = enumerate (contacted (trace_of run)).
Proof.
  set (n := length (attempts_made (enumerate models))).
  assert (Hp : attempts_made (enumerate models) = firstn n (enumerate models))
    by apply attempted_prefix.
  assert (Hc : contacted (trace_of run) = firstn n models).
  { rewrite run_spec. unfold trace_of. cbn [snd].
    unfold events_of. rewrite contacted_events_at. fold attempts_made.
    rewrite Hp, firstn_enumerate, map_snd_enumerate. reflexivity. }
  split; [exact Hc|].
  rewrite Hc, <- firstn_enumerate. exact Hp.
Qed.

(** C2, amended. With a budget within the list, if no attempt is
    accepted the call returns no text, no model, and the log of all
    [max_attempts] models in priority order: for each model its line
    [Attempt i: name], followed by a second line, tagged [Timeout] or
    [Error], when the attempt raised. The log so has [max_attempts]
    lines plus one per attempt that raised, and exactly [max_attempts]
    when none did. *)
Theorem exhausted_log :
  (0 <= max_attempts <= 8)%Z ->
  none_accepted OPENROUTER_API_KEY post input_text target_culture
                max_attempts ->
  fst run = (None, None, flat_map lines_of (enumerate models)) /\
  length (log_of run) =
    Z.to_nat max_attempts
    + length (filter (fun im => raised (outcome_of im))
                     (enumerate models)) /\
  ((forall im, In im (enumerate models) -> raised (outcome_of im) = false)
   -> length (log_of run) = Z.to_nat max_attempts).
Proof.
  intros Hk Hnone.
  assert (Hall : forall im, In im (enumerate models) ->
                            is_success (outcome_of im) = false).
  { intros [i m] Hin. apply In_nth_error in Hin. destruct Hin as [n Hn].
    apply nth_error_enumerate in Hn. destruct Hn as [-> Hn].
    apply not_accepted_not_success. intro t. exact (Hnone n m t Hn). }
  destruct (no_success_all OPENROUTER_API_KEY post prompt _ Hall)
    as [Hf Ha].
  assert (Hlen : length (enumerate models) = Z.to_nat max_attempts).
  { rewrite length_enumerate. apply length_slice_to_exact.
    change (length FREE_MODELS) with 8. lia. }
  assert (Hlog : log_of run = flat_map lines_of (enumerate models)).
  { rewrite run_spec. unfold log_of. cbn [fst snd].
    unfold attempts_made. rewrite Ha. reflexivity. }
  split; [|split].
  - rewrite run_spec. cbn [fst]. unfold first_accept, attempts_made.
    rewrite Hf, Ha. reflexivity.
  - rewrite Hlog. unfold lines_of.
    rewrite length_lines_at, Hlen. reflexivity.
  - intro Hnr. rewrite Hlog. unfold lines_of.
    rewrite length_lines_at, Hlen.
    fold outcome_of. rewrite (filter_none _ _ Hnr). cbn [length]. lia.
Qed.

(** C3, amended. Whatever the outcomes, the returned log is made, for the
    models contacted and in contact order, of the line [Attempt i: name]
    of each, followed by a second line tagged [Timeout] or [Error] for
    the attempts that raised: one line per model contacted, and one more
    per timeout or exception. *)
Theorem log_per_contact :
  log_of run = flat_map lines_of (enumerate (contacted (trace_of run))) /\
  length (log_of run) =
    length (contacted (trace_of run))
    + length (filter (fun im => raised (outcome_of im))
                     (enumerate (contacted (trace_of run)))).
Proof.
  destruct attempted_contacted as [_ Hc].
  assert (Hlog : log_of run
                 = flat_map lines_of
                     (enumerate (contacted (trace_of run)))).
  { rewrite <- Hc. rewrite run_spec. reflexivity. }
  split; [exact Hlog|].
  rewrite Hlog at 1. unfold lines_of.
  rewrite length_lines_at, length_enumerate. reflexivity.
Qed.

(** C5. With a budget [max_attempts] (not negative), a call contacts at
    most [max_attempts] models, and no model twice. *)
Theorem contacts_bounded :
  (0 <= max_attempts)%Z ->
  (Z.of_nat (length (contacted (trace_of run))) <= max_attempts)%Z /\
  NoDup (contacted (trace_of run)).
Proof.
  intro Hk. destruct attempted_contacted as [Hc _]. rewrite Hc. split.
  - pose proof (length_slice_to_le FREE_MODELS Hk) as Hs.
    fold models in Hs. rewrite length_firstn. lia.
  - apply NoDup_firstn. apply NoDup_slice_to. exact FREE_MODELS_NoDup.
Qed.

Lemma no_first_accept (ims : list (nat * pystr)) :
  first_accept ims = None ->
  forall im, In im ims -> is_success (outcome_of im) = false.
Proof.
  induction ims as [|x rest IH]; [intros _ im []|].
  unfold first_accept in *. cbn [first_success]. fold outcome_of.
  intros H im [<- | Him].
  - destruct (outcome_of x); try reflexivity. discriminate H.
  - apply IH; [|exact Him]. destruct (outcome_of x); try exact H.
    discriminate H.
Qed.

(** C9. In the returned triple the text is present if and only if the
    model is: when some model is accepted (the first such model [m], with
    its text) the call returns that text and that model, both present;
    when no model is accepted it returns neither; and one of the two
    always holds. *)
Theorem text_iff_model :
  (text_of run <> None <-> used_of run <> None) /\
  (forall i m text,
     accepted_in i m text ->
     text_of run = Some text /\ used_of run = Some m) /\
  (none_accepted OPENROUTER_API_KEY post input_text target_culture
                 max_attempts ->
   text_of run = None /\ used_of run = None) /\
  ((exists i m text, accepted_in i m text) \/
   none_accepted OPENROUTER_API_KEY post input_text target_culture
                 max_attempts).
Proof.
  rewrite run_spec. unfold text_of, used_of. cbn [fst snd].
  split; [|split; [|split]].
  - destruct (first_accept (enumerate models)) as [[t m]|];
      cbn [option_map]; split; intro H; congruence.
  - intros i m text Hat.
    assert (Hf : first_accept (enumerate models) = Some (text, m))
      by (apply first_success_accepted; exists i; exact Hat).
    rewrite Hf. split; reflexivity.
  - intro Hnone.
    assert (Hall : forall im, In im (enumerate models) ->
                              is_success (outcome_of im) = false).
    { intros [i m] Hin. apply In_nth_error in Hin. destruct Hin as [n Hn].
      apply nth_error_enumerate in Hn. destruct Hn as [-> Hn].
      apply not_accepted_not_success. intro t. exact (Hnone n m t Hn). }
    destruct (no_success_all OPENROUTER_API_KEY post prompt _ Hall)
      as [Hf _].
    unfold first_accept. rewrite Hf. split; reflexivity.
  - destruct (first_accept (enumerate models)) as [[t m]|] eqn:Hf.
    + left. apply first_success_accepted in Hf. destruct Hf as [i Hi].
      exists i, m, t. exact Hi.
    + right. intros i m text Hn.
      apply not_accepted_not_success.
      apply (no_first_accept _ Hf (i, m)).
      apply nth_error_In with (n := i). apply nth_error_enumerate.
      split; [reflexivity | exact Hn].
Qed.

End Call.

(* ================================================================== *)
(** ** Attempts that are not accepted *)
(* ================================================================== *)

(** C4, amended. An attempt that is not accepted returns nothing and adds
    to the log its line [Attempt i: name], followed by a second line only
    when it raised: tagged [Timeout] after a request timeout and [Error]
    after any other exception. After an empty response or a status other
    than 200 no tag reaches the log: the outcome is only shown as a
    warning, for a status ([Rate limited] for 429, [Service overloaded] for
    503, [HTTP <status>] otherwise) only when [max_attempts] is above 1. *)
Theorem failed_attempt_report (OPENROUTER_API_KEY : pystr)
    (post : nat -> request -> post_result) (max_attempts : Z)
    (prompt : pystr) (i : nat) (model : pystr) (s : state) :
  let o := outcome_at OPENROUTER_API_KEY post prompt (i, model) in
  let name := model_name_of model in
  is_success o = false ->
  iteration OPENROUTER_API_KEY post max_attempts prompt i model s =
  (None,
   {| attempts :=
        attempts s ++
        attempt_line i name ::
        match o with
        | TimedOut => [attempt_line i name ++ u " - Timeout"]
        | Exception _ => [attempt_line i name ++ u " - Error"]
        | _ => []
        end;
      trace :=
        trace s ++
        shown max_attempts (StWriteTrying name) ++
        RequestsPost (make_request OPENROUTER_API_KEY prompt model) ::
        match o with
        | Success _ => []
        | EmptyResponse => StWarningEmpty name :: pause max_attempts i
        | NoChoices => pause max_attempts i
        | RateLimited =>
            shown max_attempts (StWarningFailed name (u "Rate limited"))
              ++ pause max_attempts i
        | Overloaded =>
            shown max_attempts
                  (StWarningFailed name (u "Service overloaded"))
              ++ pause max_attempts i
        | HttpError status =>
            shown max_attempts
                  (StWarningFailed name (u "HTTP " ++ str_of_int status))
              ++ pause max_attempts i
        | TimedOut => shown max_attempts (StWarningTimedOut name)
        | Exception e => shown max_attempts (StWarningError name e)
        end |}).
Proof.
  intros o name Ho. rewrite iteration_spec.
  unfold accepted_pair, lines_at, events_at, log_lines, events_after.
  cbn [fst snd]. fold o. fold name.
  destruct o; try discriminate; reflexivity.
Qed.


(** A JSON object without the key ["choices"] is such a body. *)
Lemma object_without_choices (d : list (pystr * json)) :
  dict_get d (u "choices") = None ->
  py_in (u "choices") (JObj d) = Ok false.
Proof. intro H. cbn [py_in]. rewrite H. reflexivity. Qed.

(* ================================================================== *)
(** ** The handler and the saved row *)
(* ================================================================== *)

Lemma inserted_write_attempts (l : list pystr) :
  inserted (map StWriteAttempt l) = [].
Proof. induction l as [|a l IH]; [reflexivity | exact IH]. Qed.

Lemma inserted_report_failure (l : list pystr) :
  inserted (report_failure l) = [].
Proof.
  unfold report_failure. rewrite !inserted_app, inserted_write_attempts.
  reflexivity.
Qed.

Lemma inserted_save (insert_execute : translation_row -> option exn)
    (sess : session) (input_text target_culture translated used : pystr)
    (row : translation_row) :
  In row (inserted (save_translation_to_db insert_execute sess input_text
                      target_culture translated used)) ->
  model_used row = used /\ translated_text row = translated.
Proof.
  unfold save_translation_to_db.
  destruct (supabase_client sess); [|intros []].
  destruct (user_email sess) as [email|]; [|intros []].
  cbn [inserted].
  destruct (insert_execute _); cbn [inserted]; intros [<- | []];
    split; reflexivity.
Qed.

(** C6, amended. When the source text or the target culture is empty as
    typed (nothing is trimmed), the handler only shows its warning: the
    sequencer is not called, no model is contacted and no attempt is
    logged. *)
Theorem empty_input_short_circuit (OPENROUTER_API_KEY : pystr)
    (post : nat -> request -> post_result)
    (insert_execute : translation_row -> option exn) (sess : session)
    (input_text target_culture : pystr) (max_attempts : Z)
    (save_translation show_debug : bool) :
  input_text = [] \/ target_culture = [] ->
  on_translate OPENROUTER_API_KEY post insert_execute sess input_text
               target_culture max_attempts save_translation show_debug
  = [StWarningFillBoth].
Proof.
  intros [-> | ->]; unfold on_translate; cbn [truthy negb orb];
    [reflexivity|].
  rewrite orb_true_r. reflexivity.
Qed.

(** C8. The handler inserts a row only when the sequencer returned a
    model, and the row carries the identifier of the model whose attempt
    was accepted, with the text accepted from it. *)
Theorem record_only_on_accept (OPENROUTER_API_KEY : pystr)
    (post : nat -> request -> post_result)
    (insert_execute : translation_row -> option exn) (sess : session)
    (input_text target_culture : pystr) (max_attempts : Z)
    (save_translation show_debug : bool) (row : translation_row) :
  In (TableInsert row)
     (on_translate OPENROUTER_API_KEY post insert_execute sess input_text
                   target_culture max_attempts save_translation show_debug) ->
  used_of (smart_translate_humor OPENROUTER_API_KEY post input_text
             target_culture max_attempts) = Some (model_used row) /\
  exists i,
    accepted_at OPENROUTER_API_KEY post input_text target_culture
                max_attempts i (model_used row) (translated_text row).
Proof.
  intro H. apply in_inserted in H. revert H.
  unfold on_translate.
  destruct (negb (truthy input_text) || negb (truthy target_culture));
    [intros []|].
  rewrite run_spec. unfold used_of. cbn [fst snd].
  destruct (first_success _ _ _ _) as [[text m]|] eqn:Hf;
    cbn [option_map fst snd]; rewrite inserted_app, inserted_events_at;
    cbn [app]; [| rewrite inserted_report_failure; intros []].
  destruct (truthy text); [| rewrite inserted_report_failure; intros []].
  cbn [inserted]. rewrite !inserted_app. cbn [inserted].
  replace (inserted (if show_debug && opt_truthy (Some m)
                     then [StInfoModelUsed (model_name_of m)] else []))
    with (@nil translation_row)
    by (destruct (show_debug && opt_truthy (Some m)); reflexivity).
  cbn [app]. rewrite app_nil_r.
  destruct (save_translation && opt_truthy (Some m)); [|intros []].
  rewrite inserted_app. cbn [inserted]. rewrite app_nil_r.
  intro H. apply inserted_save in H. destruct H as [<- <-].
  split; [reflexivity|].
  apply first_success_accepted. exact Hf.
Qed.

(** The pauses of one turn of the loop: a turn pauses only when its attempt
    neither was accepted nor raised, and is not the last permitted one. *)
Lemma iteration_sleeps (OPENROUTER_API_KEY : pystr)
    (post : nat -> request -> post_result) (max_attempts : Z)
    (prompt : pystr) (i : nat) (model : pystr) (s : state) :
  let o := outcome_at OPENROUTER_API_KEY post prompt (i, model) in
  sleeps (trace (snd (iteration OPENROUTER_API_KEY post max_attempts prompt
                        i model s)))
  = sleeps (trace s) ++
    (if is_success o || raised o then []
     else if (Z.of_nat i <? max_attempts - 1)%Z then [2%Z] else []).
Proof.
  intro o. rewrite iteration_spec. cbn [snd trace].
  unfold events_at, events_after, shown, pause. cbn [fst snd]. fold o.
  rewrite !sleeps_app.
  destruct o; destruct (1 <? max_attempts)%Z;
    destruct (Z.of_nat i <? max_attempts - 1)%Z; reflexivity.
Qed.

(** C7, at the failing input. With a budget of 2 and a first request that
    fails to connect, the second model is contacted and accepted with no
    pause in between: the trace holds no [time.sleep]. *)
Theorem pause_skipped_after_exception :
  let r := smart_translate_humor sample_key post_refused_then_ok
             (u "joke") (u "German") 2 in
  contacted (trace_of r) = [first_model; second_model] /\
  sleeps (trace_of r) = [] /\
  log_of r =
    [u "Attempt 1: mistral-small-3.2-24b-instruct:free";
     u "Attempt 1: mistral-small-3.2-24b-instruct:free - Error";
     u "Attempt 2: llama-3-8b-instruct:free"].
Proof. vm_compute. repeat split. Qed.

(** The sibling path: after a rate-limited first attempt the pause is
    made. *)
Lemma pause_after_status :
  sleeps (trace_of (smart_translate_humor sample_key post_limited_then_ok
                      (u "joke") (u "German") 2)) = [2%Z].
Proof. vm_compute. reflexivity. Qed.

(* ================================================================== *)
(** ** The claims on sample worlds *)
(* ================================================================== *)

(** The scenario of the specification: the first model is rate limited, the
    second one answers; the call accepts from the second. *)
Lemma accept_iff_valid_content_witness :
  let r := smart_translate_humor sample_key post_limited_then_ok
             (u "joke") (u "German") 3 in
  fst r = (Some chicken, Some second_model,
           [u "Attempt 1: mistral-small-3.2-24b-instruct:free";
            u "Attempt 2: llama-3-8b-instruct:free"]) /\
  (exists i, accepted_at sample_key post_limited_then_ok (u "joke")
                         (u "German") 3 i second_model chicken) /\
  (10 < len (strip chicken))%Z.
Proof.
  intro r.
  assert (E : r = ((Some chicken, Some second_model,
                    [u "Attempt 1: mistral-small-3.2-24b-instruct:free";
                     u "Attempt 2: llama-3-8b-instruct:free"]), snd r))
    by (vm_compute; reflexivity).
  destruct (accept_iff_valid_content sample_key post_limited_then_ok
              (u "joke") (u "German") 3 chicken second_model
              [u "Attempt 1: mistral-small-3.2-24b-instruct:free";
               u "Attempt 2: llama-3-8b-instruct:free"] (snd r))
    as [Hiff Hlen].
  split; [rewrite E; reflexivity|]. split.
  - destruct (proj1 Hiff E) as (i & Hi & _). exists i. exact Hi.
  - exact (Hlen (Some second_model) E).
Defined.

Lemma post_timeout_none_accepted (k : Z) :
  none_accepted sample_key post_timeout (u "joke") (u "German") k.
Proof.
  intros i m text _ (resp & data & Heq & _). discriminate Heq.
Defined.

Lemma post_status_none_accepted (status k : Z) :
  status <> 200%Z ->
  none_accepted sample_key (post_status status) (u "joke") (u "German") k.
Proof.
  intros Hne i m text _ (resp & data & Heq & Hst & _).
  injection Heq as <-. exact (Hne Hst).
Defined.

(** C2 as worded fails: with a budget of 1 and a request that times out,
    nothing is accepted and the log has two lines. *)
Lemma exhausted_log_counterexample :
  ~ exhausted_log_as_worded sample_key post_timeout (u "joke") (u "German") 1.
Proof.
  intro H.
  destruct (H (post_timeout_none_accepted 1)) as (log & Hr & Hlen & _).
  vm_compute in Hr. injection Hr as <-. discriminate Hlen.
Qed.

Lemma exhausted_log_witness :
  (0 <= 2 <= 8)%Z /\
  none_accepted sample_key (post_status 429) (u "joke") (u "German") 2 /\
  fst (smart_translate_humor sample_key (post_status 429)
         (u "joke") (u "German") 2)
  = (None, None,
     [u "Attempt 1: mistral-small-3.2-24b-instruct:free";
      u "Attempt 2: llama-3-8b-instruct:free"]).
Proof.
  assert (Hk : (0 <= 2 <= 8)%Z) by lia.
  assert (Hn : none_accepted sample_key (post_status 429)
                 (u "joke") (u "German") 2)
    by (apply post_status_none_accepted; discriminate).
  split; [exact Hk|]. split; [exact Hn|].
  destruct (exhausted_log Hk Hn) as [Hr _].
  rewrite Hr. vm_compute. reflexivity.
Defined.

(** C3 as worded fails: with a budget of 2, a first request that fails to
    connect and a second one that succeeds, two models are contacted and
    the log has three lines. *)
Lemma log_per_contact_counterexample :
  ~ one_entry_per_contact_as_worded sample_key post_refused_then_ok
      (u "joke") (u "German") 2.
Proof.
  intros [Hlen _]. vm_compute in Hlen. discriminate Hlen.
Qed.

(** C4 as worded fails: with a budget of 1, a first model answering 429
    and one answering 503 leave the same log, so no reading of the lines
    tells the two outcomes apart. *)
Lemma log_tagged_counterexample : ~ log_tagged_as_worded sample_key.
Proof.
  intros [read H].
  assert (Hin : forall status,
             In (0, first_model)
                (attempted sample_key (post_status status)
                   (make_prompt (u "joke") (u "German"))
                   (enumerate (slice_to FREE_MODELS 1))))
    by (intro status; left; reflexivity).
  destruct (H (post_status 429) (u "joke") (u "German") 1%Z 0 first_model
              TagRateLimited (Hin 429%Z) eq_refl)
    as (l1 & Hl1 & _ & Hr1); [discriminate|].
  destruct (H (post_status 503) (u "joke") (u "German") 1%Z 0 first_model
              TagOverloaded (Hin 503%Z) eq_refl)
    as (l2 & Hl2 & _ & Hr2); [discriminate|].
  vm_compute in Hl1. vm_compute in Hl2.
  destruct Hl1 as [<- | []]. destruct Hl2 as [<- | []].
  rewrite Hr1 in Hr2. discriminate Hr2.
Qed.

Lemma failed_attempt_report_witness :
  is_success (outcome_at sample_key (post_status 503)
                (make_prompt (u "joke") (u "German")) (0, first_model))
  = false /\
  attempts (snd (iteration sample_key (post_status 503) 1
                   (make_prompt (u "joke") (u "German")) 0 first_model
                   {| attempts := []; trace := [] |}))
  = [u "Attempt 1: mistral-small-3.2-24b-instruct:free"].
Proof.
  split; [reflexivity|].
  rewrite (@failed_attempt_report sample_key (post_status 503) 1
             (make_prompt (u "joke") (u "German")) 0 first_model
             {| attempts := []; trace := [] |} eq_refl).
  vm_compute. reflexivity.
Defined.

Lemma contacts_bounded_witness :
  (0 <= 3)%Z /\
  (Z.of_nat (length (contacted (trace_of
      (smart_translate_humor sample_key post_timeout
         (u "joke") (u "German") 3)))) <= 3)%Z.
Proof.
  assert (Hk : (0 <= 3)%Z) by lia.
  split; [exact Hk|].
  exact (proj1 (contacts_bounded sample_key post_timeout
                  (u "joke") (u "German") Hk)).
Defined.

(** C6 as worded fails: a source text of one space is empty after trimming,
    and the handler still calls the sequencer, which contacts a model. *)
Lemma short_circuit_counterexample :
  ~ short_circuit_as_worded sample_key post_ok insert_ok sample_session
      (u " ") (u "German") 1 true false.
Proof.
  intro H. specialize (H (or_introl eq_refl)).
  vm_compute in H. discriminate H.
Qed.

Lemma empty_input_short_circuit_witness :
  ([] = @nil N \/ u "German" = []) /\
  on_translate sample_key post_ok insert_ok sample_session
               [] (u "German") 3 true false
  = [StWarningFillBoth].
Proof.
  assert (H : [] = @nil N \/ u "German" = []) by (left; reflexivity).
  split; [exact H|].
  exact (empty_input_short_circuit sample_key post_ok insert_ok
           sample_session 3 true false H).
Defined.

Lemma record_only_on_accept_witness :
  In (TableInsert sample_row)
     (on_translate sample_key post_limited_then_ok insert_ok sample_session
                   (u "joke") (u "German") 3 true false) /\
  used_of (smart_translate_humor sample_key post_limited_then_ok
             (u "joke") (u "German") 3) = Some second_model.
Proof.
  assert (H : In (TableInsert sample_row)
                (on_translate sample_key post_limited_then_ok insert_ok
                   sample_session (u "joke") (u "German") 3 true false)).
  { vm_compute. do 10 right. left. reflexivity. }
  split; [exact H|].
  exact (proj1 (record_only_on_accept _ _ _ _ _ _ _ _ _ _ H)).
Defined.


(* ================================================================== *)
(** ** Further properties of the sequencer *)
(* ================================================================== *)

Lemma firstn_length_self {A} (l : list A) (p : nat) :
  firstn (length (firstn p l)) l = firstn p l.
Proof.
  rewrite length_firstn. destruct (Nat.le_ge_cases p (length l)) as [H | H].
  - rewrite Nat.min_l by exact H. reflexivity.
  - rewrite Nat.min_r by exact H.
    rewrite firstn_all, firstn_all2 by exact H. reflexivity.
Qed.

Lemma slice_to_firstn {A} (l : list A) (k : Z) :
  exists m, slice_to l k = firstn m l.
Proof. unfold slice_to. destruct (k <? 0)%Z; eexists; reflexivity. Qed.

Lemma in_firstn {A} (l : list A) (n : nat) (x : A) :
  In x (firstn n l) -> In x l.
Proof.
  intro H. rewrite <- (firstn_skipn n l). apply in_or_app. left. exact H.
Qed.

Lemma in_enumerate {A} (l : list A) (i : nat) (x : A) :
  In (i, x) (enumerate l) -> nth_error l i = Some x.
Proof.
  intro H. apply In_nth_error in H. destruct H as [n Hn].
  apply nth_error_enumerate in Hn. destruct Hn as [-> Hn]. exact Hn.
Qed.

Lemma sleeps_events_after (k : Z) (i : nat) (name : pystr) (o : outcome) :
  sleeps (events_after k i name o) =
  if is_success o || raised o then []
  else if (Z.of_nat i <? k - 1)%Z then [2%Z] else [].
Proof.
  unfold events_after, shown, pause.
  destruct o; destruct (1 <? k)%Z; destruct (Z.of_nat i <? k - 1)%Z;
    reflexivity.
Qed.

Lemma request_in_events_after (k : Z) (i : nat) (name : pystr) (o : outcome)
    (r : request) :
  ~ In (RequestsPost r) (events_after k i name o).
Proof.
  intro H. apply (in_map (fun e => match e with
                                   | RequestsPost _ => true
                                   | _ => false
                                   end)) in H.
  revert H. unfold events_after, shown, pause.
  destruct o; destruct (1 <? k)%Z; destruct (Z.of_nat i <? k - 1)%Z;
    cbn; intuition discriminate.
Qed.

Lemma truthy_models (m : pystr) : In m FREE_MODELS -> truthy m = true.
Proof.
  intro H.
  assert (E : forallb truthy FREE_MODELS = true) by reflexivity.
  rewrite forallb_forall in E. exact (E m H).
Qed.

Lemma strip_nonempty (text : pystr) :
  (10 < len (strip text))%Z -> truthy text = true.
Proof. destruct text; [cbn; lia | reflexivity]. Qed.

Section MoreAboutACall.

Variable OPENROUTER_API_KEY : pystr.
Variable post : nat -> request -> post_result.
Variable input_text target_culture : pystr.
Variable max_attempts : Z.

Let the_models := slice_to FREE_MODELS max_attempts.
Let the_prompt := make_prompt input_text target_culture.
Let the_run :=
  smart_translate_humor OPENROUTER_API_KEY post input_text target_culture
                        max_attempts.
Let made :=
  attempted OPENROUTER_API_KEY post the_prompt (enumerate the_models).
Let the_outcome := outcome_at OPENROUTER_API_KEY post the_prompt.
Let the_events :=
  events_at OPENROUTER_API_KEY post max_attempts the_prompt.

Lemma made_in_models (i : nat) (m : pystr) :
  In (i, m) made -> nth_error the_models i = Some m /\ In m FREE_MODELS.
Proof.
  intro H. unfold made in H. rewrite attempted_prefix in H.
  apply in_firstn in H. apply in_enumerate in H. split; [exact H|].
  apply nth_error_In in H. unfold the_models in H.
  destruct (slice_to_firstn FREE_MODELS max_attempts) as [n Hn].
  rewrite Hn in H. exact (in_firstn _ _ _ H).
Qed.

(** X1. The models contacted are the first models of the priority list,
    in its order and without a gap, whatever the budget. *)
Theorem contacted_is_prefix :
  contacted (trace_of the_run)
  = firstn (length (contacted (trace_of the_run))) FREE_MODELS.
Proof.
  destruct (attempted_contacted OPENROUTER_API_KEY post input_text
              target_culture max_attempts) as [Hc _].
  fold the_run in Hc.
  destruct (slice_to_firstn FREE_MODELS max_attempts) as [n Hn].
  rewrite Hn, firstn_firstn in Hc. rewrite Hc.
  symmetry. apply firstn_length_self.
Qed.

(** X2. Every request of a call goes to a model of the priority list and
    carries the same arguments: the fixed URL, the bearer key, the prompt
    built from the two inputs, 500 tokens at most, temperature 0.7 and a
    timeout of 30. *)
Theorem requests_uniform (r : request) :
  In (RequestsPost r) (trace_of the_run) ->
  r = make_request OPENROUTER_API_KEY
                   (make_prompt input_text target_culture) (model r) /\
  In (model r) FREE_MODELS /\
  max_tokens r = 500%Z /\ timeout r = 30%Z /\ temperature r = u "0.7".
Proof.
  unfold the_run. rewrite run_spec. unfold trace_of. cbn [snd].
  intro H. apply in_flat_map in H. destruct H as ([i m] & Him & Hr).
  unfold events_at in Hr. cbn [fst snd] in Hr.
  apply in_app_or in Hr. destruct Hr as [Hr | [Hr | Hr]].
  - unfold shown in Hr. destruct (1 <? max_attempts)%Z;
      [destruct Hr as [Hr | []]; discriminate Hr | destruct Hr].
  - injection Hr as <-. cbn [model].
    split; [reflexivity|]. split; [|repeat split].
    exact (proj2 (made_in_models _ _ Him)).
  - exfalso. exact (request_in_events_after _ _ _ _ _ Hr).
Qed.

Lemma sleeps_the_events (im : nat * pystr) :
  sleeps (the_events im) =
  if is_success (the_outcome im) || raised (the_outcome im) then []
  else if (Z.of_nat (fst im) <? max_attempts - 1)%Z then [2%Z] else [].
Proof.
  unfold the_events, events_at. rewrite sleeps_app. cbn [sleeps].
  rewrite sleeps_events_after. unfold shown.
  destruct (1 <? max_attempts)%Z; reflexivity.
Qed.

Lemma sleeps_made_bound (ims : list (nat * pystr)) :
  (forall d, ims <> [] ->
             (max_attempts - 1 <= Z.of_nat (fst (last ims d)))%Z) ->
  length (sleeps (flat_map the_events
                    (attempted OPENROUTER_API_KEY post the_prompt ims)))
  <= pred (length (attempted OPENROUTER_API_KEY post the_prompt ims)).
Proof.
  induction ims as [|im rest IH]; intro Hlast; [apply Nat.le_refl|].
  cbn [attempted]. fold the_outcome.
  destruct (is_success (the_outcome im)) eqn:Hs.
  - cbn [flat_map]. rewrite app_nil_r, sleeps_the_events, Hs. apply Nat.le_refl.
  - cbn [flat_map length pred]. rewrite sleeps_app, length_app.
    destruct rest as [|im' rest'].
    + cbn [attempted flat_map sleeps length]. rewrite sleeps_the_events, Hs.
      cbn [orb]. destruct (raised (the_outcome im)); [apply Nat.le_refl|].
      specialize (Hlast im (ltac:(discriminate))). cbn [last] in Hlast.
      destruct (Z.of_nat (fst im) <? max_attempts - 1)%Z eqn:Hlt;
        [apply Z.ltb_lt in Hlt; lia | apply Nat.le_refl].
    + assert (Hr : forall d, im' :: rest' <> [] ->
                (max_attempts - 1 <= Z.of_nat (fst (last (im' :: rest') d)))%Z).
      { intros d _. exact (Hlast d (ltac:(discriminate))). }
      specialize (IH Hr).
      assert (Hpos : 1 <= length (attempted OPENROUTER_API_KEY post
                                    the_prompt (im' :: rest')))
        by (cbn [attempted length]; lia).
      assert (Hone : length (sleeps (the_events im)) <= 1).
      { rewrite sleeps_the_events.
        destruct (is_success (the_outcome im) || raised (the_outcome im));
          [cbn; lia|].
        destruct (Z.of_nat (fst im) <? max_attempts - 1)%Z; cbn; lia. }
      lia.
Qed.


Lemma last_combine_seq {A} (l : list A) (a : nat) (d : nat * A) :
  l <> [] ->
  fst (last (combine (seq a (length l)) l) d) = a + pred (length l).
Proof.
  revert a. induction l as [|x l IH]; intros a H; [contradiction|].
  destruct l as [|y l'].
  - cbn. lia.
  - change (fst (last (combine (seq (S a) (length (y :: l'))) (y :: l')) d)
            = a + pred (length (x :: y :: l'))).
    rewrite IH by discriminate. cbn [length pred]. lia.
Qed.

Lemma sleeps_all_two (l : list (nat * pystr)) (n : Z) :
  In n (sleeps (flat_map the_events l)) -> n = 2%Z.
Proof.
  induction l as [|im l IH]; [intros []|].
  cbn [flat_map]. rewrite sleeps_app, sleeps_the_events. intro H.
  apply in_app_or in H. destruct H as [H | H]; [|exact (IH H)].
  destruct (is_success (the_outcome im) || raised (the_outcome im));
    [destruct H|].
  destruct (Z.of_nat (fst im) <? max_attempts - 1)%Z;
    [destruct H as [<- | []]; reflexivity | destruct H].
Qed.

Lemma length_contacted_made :
  length (contacted (trace_of the_run)) = length made.
Proof.
  unfold the_run. rewrite run_spec. unfold trace_of. cbn [snd].
  rewrite contacted_events_at, length_map. reflexivity.
Qed.

Lemma after_last_request_split (before after : list event) (r : request) :
  contacted after = [] ->
  after_last_request (before ++ RequestsPost r :: after) = after.
Proof.
  intro H. induction before as [|e before IH].
  - cbn [app after_last_request]. rewrite H. reflexivity.
  - cbn [app after_last_request]. rewrite contacted_app. cbn [contacted].
    destruct (contacted before); exact IH.
Qed.

Lemma after_last_request_app (a b : list event) :
  contacted b <> [] ->
  after_last_request (a ++ b) = after_last_request b.
Proof.
  intro H. induction a as [|e a IH]; [reflexivity|].
  cbn [app after_last_request]. rewrite contacted_app.
  destruct (contacted a) as [|x xs]; cbn [app];
    [destruct (contacted b); [contradiction | exact IH] | exact IH].
Qed.

Lemma after_last_request_events (im : nat * pystr) :
  contacted (the_events im) <> [] /\
  after_last_request (the_events im)
  = events_after max_attempts (fst im) (model_name_of (snd im))
                 (the_outcome im).
Proof.
  unfold the_events, events_at. split.
  - rewrite contacted_app. cbn [contacted].
    destruct (contacted (shown _ _)); discriminate.
  - apply after_last_request_split. apply contacted_events_after.
Qed.

(** The last attempt made succeeds or is the last model of the list. *)
Lemma last_attempted (ims : list (nat * pystr)) (d : nat * pystr) :
  attempted OPENROUTER_API_KEY post the_prompt ims <> [] ->
  is_success
    (the_outcome (last (attempted OPENROUTER_API_KEY post the_prompt ims) d))
  = true \/
  last (attempted OPENROUTER_API_KEY post the_prompt ims) d = last ims d.
Proof.
  induction ims as [|im rest IH]; [intro H; contradiction|]. intros _.
  cbn [attempted]. fold the_outcome.
  destruct (is_success (the_outcome im)) eqn:Hs.
  - left. exact Hs.
  - destruct rest as [|im' rest']; [right; reflexivity|].
    assert (Hne : attempted OPENROUTER_API_KEY post the_prompt (im' :: rest')
                  <> []) by (cbn [attempted]; discriminate).
    specialize (IH Hne).
    remember (attempted OPENROUTER_API_KEY post the_prompt (im' :: rest'))
      as l eqn:El.
    destruct l as [|x l']; [contradiction|].
    change (last (im :: x :: l') d) with (last (x :: l') d).
    change (last (im :: im' :: rest') d) with (last (im' :: rest') d).
    exact IH.
Qed.

Lemma flat_map_last {A B} (f : A -> list B) (l : list A) (d : A) :
  l <> [] -> flat_map f l = flat_map f (removelast l) ++ f (last l d).
Proof.
  intro H. rewrite (app_removelast_last d H) at 1.
  rewrite flat_map_app. cbn [flat_map]. rewrite app_nil_r. reflexivity.
Qed.

Lemma no_sleep_after_last_request :
  (max_attempts <= 8)%Z ->
  sleeps (after_last_request (flat_map the_events made)) = [].
Proof.
  intro Hk. destruct made as [|x l] eqn:Em; [reflexivity|].
  assert (Hne : made <> []) by (rewrite Em; discriminate).
  rewrite <- Em.
  rewrite (flat_map_last the_events (0, []) Hne).
  destruct (after_last_request_events (last made (0, []))) as [Hc Ha].
  rewrite (@after_last_request_app _ _ Hc), Ha, sleeps_events_after.
  destruct (is_success (the_outcome (last made (0, [])))) eqn:Hs;
    [reflexivity|].
  cbn [orb]. destruct (raised _); [reflexivity|].
  destruct (Z.ltb_spec (Z.of_nat (fst (last made (0, []))))
                       (max_attempts - 1)) as [Hlt | _]; [|reflexivity].
  exfalso.
  destruct (last_attempted (enumerate the_models) (0, []) Hne)
    as [Hsucc | Hlast].
  - fold made in Hsucc. rewrite Hsucc in Hs. discriminate Hs.
  - fold made in Hlast. rewrite Hlast in Hlt.
    assert (Hm : the_models <> []).
    { intro E. unfold made in Hne. rewrite E in Hne. apply Hne.
      reflexivity. }
    unfold enumerate in Hlt. rewrite last_combine_seq in Hlt by exact Hm.
    cbn [Nat.add] in Hlt.
    assert (Hlen : 1 <= length the_models)
      by (destruct the_models; [contradiction | cbn; lia]).
    destruct (Z.ltb_spec max_attempts 0) as [Hneg | Hpos]; [lia|].
    unfold the_models in *.
    rewrite length_slice_to_exact in *
      by (change (length FREE_MODELS) with 8; lia).
    lia.
Qed.

(** X3. Every pause lasts 2. With a budget within the list (at most 8) no
    pause follows the last attempt of the call: after the last request of
    the trace there is no pause. The pauses are so at most one fewer than
    the models contacted. *)
Theorem pauses_between_attempts :
  (forall n, In n (sleeps (trace_of the_run)) -> n = 2%Z) /\
  ((max_attempts <= 8)%Z ->
   forall before r after,
     trace_of the_run = before ++ RequestsPost r :: after ->
     contacted after = [] ->
     sleeps after = []) /\
  ((max_attempts <= 8)%Z ->
   length (sleeps (trace_of the_run))
   <= pred (length (contacted (trace_of the_run)))).
Proof.
  split; [|split].
  - unfold the_run. rewrite run_spec. unfold trace_of. cbn [snd].
    intro n. apply sleeps_all_two.
  - intros Hk before r after Htr Hc.
    rewrite <- (@after_last_request_split before after r Hc), <- Htr.
    unfold the_run. rewrite run_spec. unfold trace_of. cbn [snd].
    exact (no_sleep_after_last_request Hk).
  - intro Hk. rewrite length_contacted_made.
    unfold the_run. rewrite run_spec. unfold trace_of. cbn [snd].
    fold the_prompt. fold the_models.
    apply sleeps_made_bound. intros d Hne. unfold enumerate in *.
    assert (Hm : the_models <> []) by (intro E; rewrite E in Hne; auto).
    rewrite last_combine_seq by exact Hm. cbn [Nat.add].
    assert (Hlen : 1 <= length the_models)
      by (destruct the_models; [contradiction | cbn; lia]).
    destruct (Z.ltb_spec max_attempts 0) as [Hneg | Hpos]; [lia|].
    unfold the_models in *.
    rewrite length_slice_to_exact in *
      by (change (length FREE_MODELS) with 8; lia).
    lia.
Qed.



Lemma quiet_the_events (im : nat * pystr) :
  (max_attempts <= 1)%Z -> forallb quiet (the_events im) = true.
Proof.
  intro Hk. unfold the_events, events_at, events_after, shown, pause.
  destruct (Z.ltb_spec 1 max_attempts) as [H | _]; [lia|].
  destruct (Z.ltb_spec (Z.of_nat (fst im)) (max_attempts - 1)) as [H | _];
    [lia|].
  destruct (outcome_at _ _ _ _); reflexivity.
Qed.

(** X5. With a budget of 1 or less the sequencer shows nothing but the
    warning of an empty response: its trace holds only requests and such
    warnings, so a failed status, a timeout or an exception is not
    reported, and no pause is made. *)
Theorem single_attempt_is_quiet :
  (max_attempts <= 1)%Z -> forallb quiet (trace_of the_run) = true.
Proof.
  intro Hk. unfold the_run. rewrite run_spec. unfold trace_of. cbn [snd].
  fold the_prompt. fold the_models. fold made. fold the_events.
  induction made as [|im l IH]; [reflexivity|].
  cbn [flat_map]. rewrite forallb_app, IH, quiet_the_events by exact Hk.
  reflexivity.
Qed.

(** X6. When the first model of the list is accepted, it is the only model
    contacted and the log is its one line. *)
Theorem first_model_accepted (text : pystr) :
  (1 <= max_attempts)%Z ->
  accepts (post 0 (make_request OPENROUTER_API_KEY
                     (make_prompt input_text target_culture) first_model))
          text ->
  the_run =
  ((Some text, Some first_model,
    [attempt_line 0 (model_name_of first_model)]),
   shown max_attempts (StWriteTrying (model_name_of first_model))
     ++ RequestsPost (make_request OPENROUTER_API_KEY
                        (make_prompt input_text target_culture) first_model)
     :: shown max_attempts (StSuccessWith (model_name_of first_model))).
Proof.
  intros Hk Ha.
  assert (Hat : accepted_at OPENROUTER_API_KEY post input_text
                  target_culture max_attempts 0 first_model text).
  { split; [|split; [exact Ha | intros j mj t Hj; lia]].
    unfold slice_to. destruct (Z.ltb_spec max_attempts 0) as [H | _]; [lia|].
    destruct (Z.to_nat max_attempts) as [|n] eqn:Hn; [lia | reflexivity]. }
  destruct (accepted_log_trace Hat) as [Hl Ht].
  assert (Hf := proj2 (first_success_accepted OPENROUTER_API_KEY post
                         input_text target_culture max_attempts
                         text first_model) (ex_intro _ 0 Hat)).
  unfold the_run. rewrite run_spec, Hf, Hl, Ht. reflexivity.
Qed.

(** X7. The log has at least one line per model contacted and at most
    two. *)
Theorem log_length_bounds :
  length (contacted (trace_of the_run)) <= length (log_of the_run)
  /\ length (log_of the_run) <= 2 * length (contacted (trace_of the_run)).
Proof.
  rewrite length_contacted_made.
  unfold the_run. rewrite run_spec. unfold log_of. cbn [fst snd].
  fold the_prompt. fold the_models. fold made.
  rewrite length_lines_at.
  pose proof (filter_length_le
                (fun im => raised (outcome_at OPENROUTER_API_KEY post
                                     the_prompt im)) made) as H.
  lia.
Qed.

Lemma first_success_none (ims : list (nat * pystr)) :
  first_success OPENROUTER_API_KEY post the_prompt ims = None ->
  forall im, In im ims -> is_success (the_outcome im) = false.
Proof.
  induction ims as [|x rest IH]; [intros _ im []|].
  cbn [first_success]. fold the_outcome. intros H im [<- | Him].
  - destruct (the_outcome x); try reflexivity. discriminate H.
  - apply IH; [|exact Him]. destruct (the_outcome x); try exact H.
    discriminate H.
Qed.

Lemma none_accepted_iff :
  none_accepted OPENROUTER_API_KEY post input_text target_culture
                max_attempts
  <-> forall im, In im (enumerate the_models) ->
                 is_success (the_outcome im) = false.
Proof.
  split.
  - intros Hnone [i m] Hin. apply in_enumerate in Hin.
    apply not_accepted_not_success. intro t. exact (Hnone i m t Hin).
  - intros Hall i m t Hn.
    assert (Hin : In (i, m) (enumerate the_models)).
    { apply nth_error_In with (n := i). apply nth_error_enumerate.
      split; [reflexivity | exact Hn]. }
    apply (proj2 (not_accepted_not_success _) (Hall _ Hin)).
Qed.

Lemma no_success_contacts_all :
  (forall im, In im (enumerate the_models) ->
              is_success (the_outcome im) = false) ->
  contacted (trace_of the_run) = slice_to FREE_MODELS max_attempts.
Proof.
  intro H.
  destruct (no_success_all OPENROUTER_API_KEY post the_prompt _ H)
    as [_ Ha].
  unfold the_run. rewrite run_spec. unfold trace_of. cbn [snd].
  fold the_prompt. fold the_models. rewrite Ha.
  rewrite contacted_events_at. apply map_snd_enumerate.
Qed.

(** X8. Whatever the budget, a call returns no text exactly when no model
    of [FREE_MODELS[:max_attempts]] is accepted, and it has then contacted
    every one of them. *)
Theorem no_text_iff_none_accepted :
  (text_of the_run = None <->
   none_accepted OPENROUTER_API_KEY post input_text target_culture
                 max_attempts) /\
  (text_of the_run = None ->
   contacted (trace_of the_run) = slice_to FREE_MODELS max_attempts).
Proof.
  assert (Hiff : text_of the_run = None <->
                 forall im, In im (enumerate the_models) ->
                            is_success (the_outcome im) = false).
  { unfold the_run. rewrite run_spec. unfold text_of. cbn [fst].
    fold the_prompt. fold the_models. split.
    - intro H. apply first_success_none.
      destruct (first_success _ _ _ _); [discriminate H | reflexivity].
    - intro H.
      destruct (no_success_all OPENROUTER_API_KEY post the_prompt _ H)
        as [-> _]. reflexivity. }
  split.
  - rewrite Hiff. symmetry. exact none_accepted_iff.
  - intro H. exact (no_success_contacts_all (proj1 Hiff H)).
Qed.

(** X9. A budget of 0, or of -8 or less, selects no model: the call
    returns at once with no text, no model, an empty log, and nothing
    sent or shown. *)
Theorem empty_budget :
  max_attempts = 0%Z \/ (max_attempts <= -8)%Z ->
  the_run = ((None, None, []), []).
Proof.
  intro Hk.
  assert (Hm : slice_to FREE_MODELS max_attempts = []).
  { unfold slice_to. destruct Hk as [-> | Hk]; [reflexivity|].
    destruct (Z.ltb_spec max_attempts 0) as [_ | H]; [|lia].
    change (length FREE_MODELS) with 8.
    replace (Z.to_nat (Z.max 0 (Z.of_nat 8 + max_attempts))) with 0 by lia.
    reflexivity. }
  unfold the_run, smart_translate_humor. rewrite Hm. reflexivity.
Qed.

(** X10. A negative budget is read as Python reads a negative slice bound:
    with a budget of -j (0 < j < 8) and no model accepted, the first 8 - j
    models of the list are contacted. *)
Theorem negative_budget :
  (-8 < max_attempts < 0)%Z ->
  none_accepted OPENROUTER_API_KEY post input_text target_culture
                max_attempts ->
  contacted (trace_of the_run)
  = firstn (Z.to_nat (8 + max_attempts)) FREE_MODELS.
Proof.
  intros Hk Hnone.
  rewrite (no_success_contacts_all (proj1 none_accepted_iff Hnone)).
  unfold slice_to. destruct (Z.ltb_spec max_attempts 0) as [_ | H]; [|lia].
  change (length FREE_MODELS) with 8. f_equal. lia.
Qed.

End MoreAboutACall.

(* ================================================================== *)
(** ** Further properties of the handler *)
(* ================================================================== *)

Lemma inserted_save_rows (insert_execute : translation_row -> option exn)
    (sess : session) (input_text target_culture translated used : pystr) :
  inserted (save_translation_to_db insert_execute sess input_text
              target_culture translated used) =
  if supabase_client sess then
    match user_email sess with
    | Some email =>
        [{| row_user_email := email;
            original_text := input_text;
            row_target_culture := target_culture;
            translated_text := translated;
            model_used := used |}]
    | None => []
    end
  else [].
Proof.
  unfold save_translation_to_db.
  destruct (supabase_client sess); [|reflexivity].
  destruct (user_email sess); [|reflexivity].
  cbn [inserted]. destruct (insert_execute _); reflexivity.
Qed.

Section MoreAboutTheHandler.

Variable OPENROUTER_API_KEY : pystr.
Variable post : nat -> request -> post_result.
Variable insert_execute : translation_row -> option exn.
Variable sess : session.
Variable input_text target_culture : pystr.
Variable max_attempts : Z.
Variable save_translation show_debug : bool.

Let the_run :=
  smart_translate_humor OPENROUTER_API_KEY post input_text target_culture
                        max_attempts.
Let the_click :=
  on_translate OPENROUTER_API_KEY post insert_execute sess input_text
               target_culture max_attempts save_translation show_debug.

(** A returned text is not empty and a returned model is a non-empty name
    of the list. *)
Lemma returned_values_truthy (text m : pystr) (log : list pystr)
    (tr : list event) :
  the_run = ((Some text, Some m, log), tr) ->
  truthy text = true /\ truthy m = true.
Proof.
  unfold the_run. rewrite run_spec. intro H.
  destruct (first_success _ _ _ _) as [[t m']|] eqn:Hf; [|discriminate H].
  cbn [option_map fst snd] in H. injection H as -> -> _ _.
  apply first_success_accepted in Hf.
  destruct Hf as (i & Hn & (resp & data & _ & _ & _ & _ & Hl) & _).
  split; [exact (strip_nonempty _ Hl)|].
  apply truthy_models. apply nth_error_In in Hn.
  destruct (slice_to_firstn FREE_MODELS max_attempts) as [n E].
  rewrite E in Hn. exact (in_firstn _ _ _ Hn).
Qed.

Lemma click_after_accept (text m : pystr) (log : list pystr)
    (tr : list event) :
  truthy input_text = true -> truthy target_culture = true ->
  the_run = ((Some text, Some m, log), tr) ->
  the_click =
  tr ++ [StSuccessAdapted; StMarkdown text; ComponentsHtml text]
     ++ (if show_debug then [StInfoModelUsed (model_name_of m)] else [])
     ++ (if save_translation
         then save_translation_to_db insert_execute sess input_text
                target_culture text m ++ [StSuccessSaved]
         else [])
     ++ [SetLastTranslation input_text target_culture text (Some m)].
Proof.
  intros Hi Hc Hrun.
  destruct (returned_values_truthy Hrun) as [Ht Hm].
  unfold the_click, on_translate. rewrite Hi, Hc. cbn [negb orb].
  fold the_run. rewrite Hrun, Ht. cbn [opt_truthy]. rewrite Hm.
  rewrite !andb_true_r. reflexivity.
Qed.

Lemma click_after_failure (log : list pystr) (tr : list event) :
  truthy input_text = true -> truthy target_culture = true ->
  the_run = ((None, None, log), tr) ->
  the_click = tr ++ report_failure log.
Proof.
  intros Hi Hc Hrun.
  unfold the_click, on_translate. rewrite Hi, Hc. cbn [negb orb].
  fold the_run. rewrite Hrun. reflexivity.
Qed.

Lemma run_cases :
  (exists text m log tr, the_run = ((Some text, Some m, log), tr)) \/
  (exists log tr, the_run = ((None, None, log), tr)).
Proof.
  unfold the_run. rewrite run_spec.
  destruct (first_success _ _ _ _) as [[t m]|]; cbn [option_map fst snd];
    [left | right]; repeat eexists.
Qed.

(** X11. With both fields filled in, when no model is accepted the handler
    shows the events of the call, the failure message and the returned
    log line by line, in order; it inserts no row and stores no last
    translation. *)
Theorem failure_is_reported :
  truthy input_text = true -> truthy target_culture = true ->
  none_accepted OPENROUTER_API_KEY post input_text target_culture
                max_attempts ->
  the_click =
  trace_of the_run
    ++ [StErrorAllFailed; StWriteHistoryTitle]
    ++ map StWriteAttempt (log_of the_run) ++ [StInfoWhatToDo].
Proof.
  intros Hi Hc Hnone.
  destruct run_cases as [(text & m & log & tr & Hr) | (log & tr & Hr)].
  - exfalso.
    assert (Hf : first_success OPENROUTER_API_KEY post
                   (make_prompt input_text target_culture)
                   (enumerate (slice_to FREE_MODELS max_attempts))
                 = Some (text, m)).
    { unfold the_run in Hr. rewrite run_spec in Hr.
      destruct (first_success _ _ _ _) as [[t m']|]; [|discriminate Hr].
      cbn [option_map fst snd] in Hr. injection Hr as -> -> _ _.
      reflexivity. }
    apply first_success_accepted in Hf. destruct Hf as (i & Hn & Ha & _).
    exact (Hnone i m text Hn Ha).
  - rewrite (click_after_failure Hi Hc Hr), Hr. reflexivity.
Qed.

(** X12. With both fields filled in, whenever the sequencer returns a text
    the handler takes it as a success, since an accepted text is never
    empty: it shows the text, offers it to the speech button, names the
    model when debugging is on, saves when asked to, and ends by storing
    the inputs, the text and the model as the last translation. *)
Theorem success_is_shown (i : nat) (m text : pystr) :
  truthy input_text = true -> truthy target_culture = true ->
  accepted_at OPENROUTER_API_KEY post input_text target_culture
              max_attempts i m text ->
  the_click =
  trace_of the_run
    ++ [StSuccessAdapted; StMarkdown text; ComponentsHtml text]
    ++ (if show_debug then [StInfoModelUsed (model_name_of m)] else [])
    ++ (if save_translation
        then save_translation_to_db insert_execute sess input_text
               target_culture text m ++ [StSuccessSaved]
        else [])
    ++ [SetLastTranslation input_text target_culture text (Some m)].
Proof.
  intros Hi Hc Hat.
  assert (Hf := proj2 (first_success_accepted OPENROUTER_API_KEY post
                         input_text target_culture max_attempts text m)
                      (ex_intro _ i Hat)).
  assert (Hr : the_run = ((Some text, Some m, log_of the_run),
                          trace_of the_run)).
  { unfold the_run. rewrite run_spec, Hf. reflexivity. }
  rewrite (click_after_accept Hi Hc Hr). reflexivity.
Qed.

Lemma inserted_click :
  inserted the_click =
  match the_run with
  | ((Some text, Some m, _), _) =>
      if truthy input_text && truthy target_culture && save_translation
      then inserted (save_translation_to_db insert_execute sess input_text
                       target_culture text m)
      else []
  | _ => []
  end.
Proof.
  destruct (truthy input_text) eqn:Hi;
    [| unfold the_click, on_translate; rewrite Hi;
       destruct the_run as [[[[t|] [m|]] l] tr]; reflexivity ].
  destruct (truthy target_culture) eqn:Hc;
    [| unfold the_click, on_translate; rewrite Hi, Hc;
       destruct the_run as [[[[t|] [m|]] l] tr]; reflexivity ].
  assert (Hseq : forall tr, tr = trace_of the_run -> inserted tr = []).
  { intros tr ->. unfold the_run. rewrite run_spec. unfold trace_of.
    cbn [snd]. apply inserted_events_at. }
  destruct run_cases as [(text & m & log & tr & Hr) | (log & tr & Hr)].
  - rewrite (click_after_accept Hi Hc Hr), Hr.
    rewrite !inserted_app, (Hseq tr) by (rewrite Hr; reflexivity).
    cbn [andb inserted app].
    destruct show_debug, save_translation; cbn [inserted app];
      rewrite ?inserted_app; cbn [inserted]; rewrite ?app_nil_r;
      reflexivity.
  - rewrite (click_after_failure Hi Hc Hr), Hr.
    rewrite inserted_app, inserted_report_failure,
      (Hseq tr) by (rewrite Hr; reflexivity).
    reflexivity.
Qed.

(** X13. The handler inserts nothing when saving is not asked for, when
    the session holds no client, or when it holds no e-mail. *)
Theorem no_insert_without_opt_in :
  save_translation = false \/ supabase_client sess = false
  \/ user_email sess = None ->
  inserted the_click = [].
Proof.
  intro H. rewrite inserted_click.
  destruct the_run as [[[[t|] [m|]] l] tr]; try reflexivity.
  rewrite inserted_save_rows.
  destruct H as [-> | [-> | ->]].
  - rewrite andb_false_r. reflexivity.
  - destruct (_ && _); reflexivity.
  - destruct (_ && _); destruct (supabase_client sess); reflexivity.
Qed.

(** X14. One click inserts at most one row, and an inserted row carries
    the source text and the target culture as typed and the e-mail of the
    session. *)
Theorem inserted_row_fields :
  length (inserted the_click) <= 1 /\
  forall row,
    In (TableInsert row) the_click ->
    original_text row = input_text /\
    row_target_culture row = target_culture /\
    user_email sess = Some (row_user_email row).
Proof.
  assert (Hins := inserted_click).
  destruct the_run as [[[[t|] [m|]] l] tr];
    try (rewrite Hins; split; [cbn; lia | intros row Hr];
         apply in_inserted in Hr; rewrite Hins in Hr; destruct Hr).
  rewrite inserted_save_rows in Hins.
  split.
  - rewrite Hins. destruct (_ && _); [|cbn; lia].
    destruct (supabase_client sess); [|cbn; lia].
    destruct (user_email sess); cbn; lia.
  - intros row Hr. apply in_inserted in Hr. rewrite Hins in Hr.
    destruct (_ && _); [|destruct Hr].
    destruct (supabase_client sess); [|destruct Hr].
    destruct (user_email sess) as [email|]; [|destruct Hr].
    destruct Hr as [<- | []]. repeat split.
Qed.

(** X15. With both fields filled in and saving asked for, the message
    that the translation was saved is shown after every accepted call,
    whatever the session holds and whether or not the insert went
    through; when the insert raises, its error is shown before it. *)
Theorem saved_message_regardless :
  truthy input_text = true -> truthy target_culture = true ->
  save_translation = true ->
  text_of the_run <> None ->
  In StSuccessSaved the_click /\
  forall row e,
    In (TableInsert row) the_click -> insert_execute row = Some e ->
    exists before after,
      the_click = before ++ [StErrorSave e; StSuccessSaved] ++ after.
Proof.
  intros Hi Hc Hs Hne.
  destruct run_cases as [(text & m & log & tr & Hr) | (log & tr & Hr)];
    [| rewrite Hr in Hne; contradiction Hne; reflexivity].
  split.
  - rewrite (click_after_accept Hi Hc Hr), Hs.
    apply in_or_app. right. apply in_or_app. right.
    apply in_or_app. right. apply in_or_app. left.
    apply in_or_app. right. left. reflexivity.
  - intros row e Hin He.
    assert (Hrow : In row (inserted the_click))
      by (apply in_inserted; exact Hin).
    rewrite inserted_click, Hr, Hi, Hc, Hs in Hrow. cbn [andb] in Hrow.
    rewrite inserted_save_rows in Hrow.
    rewrite (click_after_accept Hi Hc Hr), Hs.
    unfold save_translation_to_db.
    destruct (supabase_client sess); [|destruct Hrow].
    destruct (user_email sess) as [email|]; [|destruct Hrow].
    destruct Hrow as [<- | []]. rewrite He.
    exists (tr ++ [StSuccessAdapted; StMarkdown text; ComponentsHtml text]
               ++ (if show_debug then [StInfoModelUsed (model_name_of m)]
                   else [])
               ++ [TableInsert
                     {| row_user_email := email;
                        original_text := input_text;
                        row_target_culture := target_culture;
                        translated_text := text;
                        model_used := m |}]),
           [SetLastTranslation input_text target_culture text (Some m)].
    rewrite <- !app_assoc. cbn [app]. reflexivity.
Qed.

End MoreAboutTheHandler.

(* ================================================================== *)
(** ** The model name and the prompt *)
(* ================================================================== *)

Lemma split_nonempty (sep : N) (s : pystr) : split sep s <> [].
Proof.
  destruct s as [|c s]; cbn [split]; [discriminate|].
  destruct (c =? sep)%N; [discriminate|].
  destruct (split sep s); discriminate.
Qed.

Lemma split_no_sep (sep : N) (s : pystr) :
  ~ In sep s -> split sep s = [s].
Proof.
  induction s as [|c s IH]; intro H; [reflexivity|].
  cbn [split]. destruct (N.eqb_spec c sep) as [-> | Hne].
  - exfalso. apply H. left. reflexivity.
  - rewrite IH; [reflexivity|]. intro Hin. apply H. right. exact Hin.
Qed.

Lemma split_single (sep : N) (s w : pystr) :
  split sep s = [w] -> ~ In sep s.
Proof.
  revert w. induction s as [|c s IH]; intros w H; [intros []|].
  cbn [split] in H. destruct (N.eqb_spec c sep) as [-> | Hne].
  - injection H as _ H. exfalso. exact (split_nonempty _ _ H).
  - destruct (split sep s) as [|w' ws] eqn:Hs;
      [exfalso; exact (split_nonempty _ _ Hs)|].
    injection H as _ ->. intros [Hc | Hin]; [exact (Hne Hc)|].
    exact (IH w' eq_refl Hin).
Qed.

Lemma last_segment (sep : N) (s : pystr) :
  ~ In sep (last (split sep s) []) /\
  exists pre,
    s = pre ++ last (split sep s) [] /\
    (pre = [] \/ exists pre', pre = pre' ++ [sep]).
Proof.
  induction s as [|c s IH].
  - split; [intros [] | exists []; split; [reflexivity | left; reflexivity]].
  - destruct IH as [Hno (pre & Hs & Hpre)]. cbn [split].
    destruct (N.eqb_spec c sep) as [-> | Hne].
    + destruct (split sep s) as [|w ws] eqn:Hsp;
        [exfalso; exact (split_nonempty _ _ Hsp)|].
      change (last ([] :: w :: ws) []) with (last (w :: ws) (@nil N)).
      split; [exact Hno|]. exists (sep :: pre). split.
      * cbn [app]. f_equal. exact Hs.
      * right. destruct Hpre as [-> | [pre' ->]];
          [exists [] | exists (sep :: pre')]; reflexivity.
    + destruct (split sep s) as [|w ws] eqn:Hsp;
        [exfalso; exact (split_nonempty _ _ Hsp)|].
      destruct ws as [|w' ws'].
      * pose proof (split_single _ _ Hsp) as Hs'.
        rewrite (@split_no_sep sep s Hs') in Hsp. injection Hsp as <-.
        cbn [last]. split.
        -- intros [Hc | Hin]; [exact (Hne Hc) | exact (Hs' Hin)].
        -- exists []. split; [reflexivity | left; reflexivity].
      * change (last ((c :: w) :: w' :: ws') [])
          with (last (w :: w' :: ws') (@nil N)).
        split; [exact Hno|]. exists (c :: pre). split.
        -- cbn [app]. f_equal. exact Hs.
        -- right. destruct Hpre as [-> | [pre' ->]].
           ++ exfalso. cbn [app] in Hs.
              assert (Hn : ~ In sep s) by (rewrite Hs; exact Hno).
              rewrite (@split_no_sep sep s Hn) in Hsp. discriminate Hsp.
           ++ exists (c :: pre'). reflexivity.
Qed.

(** X16. The name under which a model is logged and shown is the part of
    its identifier after the last ['/']: it holds no ['/'], and the
    identifier is this name, alone or after a prefix ending in ['/']. *)
Theorem model_name_is_last_segment (m : pystr) :
  ~ In 47%N (model_name_of m) /\
  exists pre,
    m = pre ++ model_name_of m /\
    (pre = [] \/ exists pre', pre = pre' ++ [47%N]).
Proof. exact (last_segment 47 m). Qed.

Lemma startswith_app (p b : pystr) : startswith (p ++ b) p = true.
Proof.
  induction p as [|c p IH]; [destruct b; reflexivity|].
  cbn [app startswith]. rewrite N.eqb_refl. exact IH.
Qed.

Lemma str_contains_start (s p : pystr) :
  startswith s p = true -> str_contains s p = true.
Proof. intro H. destruct s; cbn [str_contains]; rewrite H; reflexivity. Qed.

Lemma str_contains_app_r (a s p : pystr) :
  str_contains s p = true -> str_contains (a ++ s) p = true.
Proof.
  intro H. induction a as [|c a IH]; [exact H|].
  cbn [app str_contains]. rewrite IH. apply orb_true_r.
Qed.

Lemma str_contains_middle (a p b : pystr) :
  str_contains (a ++ p ++ b) p = true.
Proof.
  apply str_contains_app_r, str_contains_start, startswith_app.
Qed.

(** X17. The prompt holds the source text and the target culture exactly
    as given: nothing is escaped or trimmed. *)
Theorem prompt_embeds_inputs (input_text target_culture : pystr) :
  str_contains (make_prompt input_text target_culture) input_text = true /\
  str_contains (make_prompt input_text target_culture) target_culture
  = true.
Proof.
  unfold make_prompt. split.
  - do 6 apply str_contains_app_r.
    apply str_contains_start, startswith_app.
  - apply str_contains_middle.
Qed.

(* ================================================================== *)
(** ** The page: accounts, history, translator *)
(* ================================================================== *)

Lemma collect_app {A} (pick : page_event -> option A)
    (a b : list page_event) :
  collect pick (a ++ b) = collect pick a ++ collect pick b.
Proof. apply flat_map_app. Qed.

Lemma collect_cons {A} (pick : page_event -> option A) (e : page_event)
    (l : list page_event) :
  collect pick (e :: l) =
  match pick e with Some a => [a] | None => [] end ++ collect pick l.
Proof. reflexivity. Qed.

Lemma collect_map_none {A B} (pick : page_event -> option A)
    (f : B -> page_event) (l : list B) :
  (forall x, pick (f x) = None) -> collect pick (map f l) = [].
Proof.
  intro H. induction l as [|x l IH]; [reflexivity|].
  cbn [map]. rewrite collect_cons, H, IH. reflexivity.
Qed.

Lemma page_contacted_translator (l : list event) :
  page_contacted (map Translator l) = contacted l.
Proof.
  induction l as [|e l IH]; [reflexivity|].
  cbn [map]. unfold page_contacted in *. rewrite collect_cons, IH.
  destruct e; reflexivity.
Qed.

Lemma page_inserted_translator (l : list event) :
  page_inserted (map Translator l) = inserted l.
Proof.
  induction l as [|e l IH]; [reflexivity|].
  cbn [map]. unfold page_inserted in *. rewrite collect_cons, IH.
  destruct e; reflexivity.
Qed.

Lemma contacted_save (insert_execute : translation_row -> option exn)
    (sess : session) (a b c d : pystr) :
  contacted (save_translation_to_db insert_execute sess a b c d) = [].
Proof.
  unfold save_translation_to_db. destruct (supabase_client sess);
    [|reflexivity].
  destruct (user_email sess); [|reflexivity].
  cbn [contacted]. destruct (insert_execute _); reflexivity.
Qed.

Lemma contacted_report_failure (l : list pystr) :
  contacted (report_failure l) = [].
Proof.
  unfold report_failure. rewrite !contacted_app. cbn [contacted app].
  rewrite app_nil_r. induction l as [|a l IH]; [reflexivity | exact IH].
Qed.

(** The handler contacts what the sequencer contacts, and nothing when a
    field is empty. *)
Lemma contacted_click (OPENROUTER_API_KEY : pystr)
    (post : nat -> request -> post_result)
    (insert_execute : translation_row -> option exn) (sess : session)
    (input_text target_culture : pystr) (max_attempts : Z)
    (save_translation show_debug : bool) :
  contacted (on_translate OPENROUTER_API_KEY post insert_execute sess
               input_text target_culture max_attempts save_translation
               show_debug) =
  if truthy input_text && truthy target_culture
  then contacted (trace_of (smart_translate_humor OPENROUTER_API_KEY post
                              input_text target_culture max_attempts))
  else [].
Proof.
  destruct (truthy input_text) eqn:Hi;
    [| unfold on_translate; rewrite Hi; reflexivity].
  destruct (truthy target_culture) eqn:Hc;
    [| unfold on_translate; rewrite Hi, Hc; reflexivity].
  cbn [andb].
  destruct (run_cases OPENROUTER_API_KEY post input_text target_culture
              max_attempts)
    as [(text & m & log & tr & Hr) | (log & tr & Hr)].
  - rewrite (@click_after_accept OPENROUTER_API_KEY post insert_execute
               sess input_text target_culture max_attempts save_translation
               show_debug text m log tr Hi Hc Hr), Hr.
    unfold trace_of. cbn [snd]. rewrite !contacted_app.
    cbn [contacted].
    destruct show_debug, save_translation; cbn [contacted app];
      rewrite ?contacted_app, ?contacted_save; cbn [contacted app];
      rewrite ?app_nil_r; reflexivity.
  - rewrite (@click_after_failure OPENROUTER_API_KEY post insert_execute
               sess input_text target_culture max_attempts save_translation
               show_debug log tr Hi Hc Hr), Hr.
    unfold trace_of. cbn [snd].
    rewrite contacted_app, contacted_report_failure, app_nil_r.
    reflexivity.
Qed.

Lemma stored_last_app (a b : list event) :
  stored_last (a ++ b) =
  match stored_last b with
  | Some l => Some l
  | None => stored_last a
  end.
Proof.
  induction a as [|e a IH];
    [cbn [app]; destruct (stored_last b); reflexivity|].
  destruct e; cbn [app stored_last]; rewrite IH;
    destruct (stored_last b); reflexivity.
Qed.

Lemma stored_last_events_after (k : Z) (i : nat) (name : pystr)
    (o : outcome) :
  stored_last (events_after k i name o) = None.
Proof.
  unfold events_after, shown, pause.
  destruct o; destruct (1 <? k)%Z; destruct (Z.of_nat i <? k - 1)%Z;
    reflexivity.
Qed.

Lemma stored_last_report_failure (l : list pystr) :
  stored_last (report_failure l) = None.
Proof.
  unfold report_failure. rewrite !stored_last_app. cbn [stored_last].
  induction l as [|a l IH]; [reflexivity | exact IH].
Qed.

Lemma stored_last_run (OPENROUTER_API_KEY : pystr)
    (post : nat -> request -> post_result)
    (input_text target_culture : pystr) (max_attempts : Z) :
  stored_last (trace_of (smart_translate_humor OPENROUTER_API_KEY post
                           input_text target_culture max_attempts)) = None.
Proof.
  rewrite run_spec. unfold trace_of. cbn [snd].
  induction (attempted _ _ _ _) as [|im l IH]; [reflexivity|].
  cbn [flat_map]. rewrite stored_last_app, IH.
  unfold events_at. rewrite stored_last_app. cbn [stored_last].
  rewrite stored_last_events_after.
  unfold shown. destruct (1 <? max_attempts)%Z; reflexivity.
Qed.

Section AboutThePage.

Variable OPENROUTER_API_KEY : pystr.
Variable post : nat -> request -> post_result.
Variable insert_execute : translation_row -> option exn.
Variable create_client : option exn.
Variable sign_up : pystr -> pystr -> option exn.
Variable sign_in_with_password :
  pystr -> pystr -> res (option auth_response).
Variable select_execute : history_query -> res (list stored_row).

Let the_page :=
  page OPENROUTER_API_KEY post insert_execute create_client sign_up
       sign_in_with_password select_execute.
Let the_click (s : session_state) (f : form) :=
  on_translate OPENROUTER_API_KEY post insert_execute (session_of s)
               (f_input_text f) (f_target_culture f)
               (max_attempts_of (f_models f))
               (f_save_translation f) (f_show_debug f).

Lemma history_events (s : session_state) :
  page_contacted (snd (get_user_translations select_execute s)) = [] /\
  page_inserted (snd (get_user_translations select_execute s)) = [] /\
  page_uncaught (snd (get_user_translations select_execute s)) = [].
Proof.
  unfold get_user_translations.
  destruct (ss_supabase_client s); [|repeat split].
  destruct (ss_user_email s); [|repeat split].
  cbv zeta. destruct (select_execute _); repeat split.
Qed.

Lemma history_view_facts (s : session_state) (c : click) :
  logged_in (fst (history_view select_execute s c)) = logged_in s /\
  ss_user_email (fst (history_view select_execute s c)) = ss_user_email s /\
  ss_supabase_client (fst (history_view select_execute s c))
    = ss_supabase_client s /\
  last_translation (fst (history_view select_execute s c))
    = last_translation s /\
  show_history (fst (history_view select_execute s c))
    = match c with ClickBack => Some false | _ => show_history s end /\
  page_contacted (snd (history_view select_execute s c)) = [] /\
  page_inserted (snd (history_view select_execute s c)) = [] /\
  page_uncaught (snd (history_view select_execute s c)) = [] /\
  page_queries (snd (history_view select_execute s c))
    = page_queries (snd (get_user_translations select_execute s)).
Proof.
  destruct (history_events s) as (Hc & Hi & Hu). revert Hc Hi Hu.
  unfold history_view.
  destruct (get_user_translations select_execute s) as [rows events].
  cbn [fst snd]. intros Hc Hi Hu.
  repeat split; try (destruct c; reflexivity);
    unfold page_contacted, page_inserted, page_uncaught, page_queries in *;
    rewrite collect_cons, collect_app; cbn match;
    rewrite ?Hc, ?Hi, ?Hu; cbn [app];
    (destruct rows as [|r rows];
     [ rewrite ?app_nil_r; reflexivity
     | rewrite collect_map_none by reflexivity;
       rewrite ?app_nil_r; reflexivity ]).
Qed.

Lemma translator_view_facts (s : session_state) (f : form) (c : click) :
  let r := translator_view OPENROUTER_API_KEY post insert_execute s f c in
  let clicked := match c with ClickTranslate => the_click s f | _ => [] end in
  logged_in (fst r) = logged_in s /\
  ss_user_email (fst r) = ss_user_email s /\
  ss_supabase_client (fst r) = ss_supabase_client s /\
  show_history (fst r) = show_history s /\
  last_translation (fst r)
    = match stored_last clicked with
      | Some l => Some l
      | None => last_translation s
      end /\
  page_contacted (snd r) = contacted clicked /\
  page_inserted (snd r) = inserted clicked /\
  page_uncaught (snd r) = [] /\
  page_queries (snd r) = [].
Proof.
  unfold translator_view, the_click. cbv zeta.
  set (clicked := match c with ClickTranslate => _ | _ => [] end).
  cbn [fst snd].
  assert (Hdebug : forall A (pick : page_event -> option A),
            (forall i m, pick (StWriteModel i m) = None) ->
            (forall n, pick (StCaptionBackup n) = None) ->
            (forall l, pick (StJsonLast l) = None) ->
            forall s', collect pick
              (if f_show_debug f
               then map (fun im => StWriteModel (fst im) (snd im))
                        (enumerate (slice_to FREE_MODELS 5))
                    ++ [StCaptionBackup (Z.of_nat (length FREE_MODELS) - 5)]
                    ++ match last_translation s' with
                       | Some l => [StJsonLast l]
                       | None => []
                       end
               else []) = []).
  { intros A pick H1 H2 H3 s'. destruct (f_show_debug f); [|reflexivity].
    rewrite !collect_app, collect_map_none by (intro x; apply H1).
    rewrite collect_cons, H2.
    destruct (last_translation s'); [rewrite collect_cons, H3|];
      reflexivity. }
  repeat split; try (destruct (stored_last clicked); reflexivity);
    unfold page_contacted, page_inserted, page_uncaught, page_queries;
    rewrite collect_app, Hdebug by reflexivity; rewrite app_nil_r.
  - apply page_contacted_translator.
  - apply page_inserted_translator.
  - apply collect_map_none. reflexivity.
  - apply collect_map_none. reflexivity.
Qed.


Lemma main_page_facts (s : session_state) (f : form) (c : click)
    (b : bool) (email : pystr) :
  logged_in s = Some b -> ss_user_email s = Some email ->
  c <> ClickLogout ->
  logged_in (fst (the_page s f c)) = logged_in s /\
  ss_user_email (fst (the_page s f c)) = ss_user_email s /\
  ss_supabase_client (fst (the_page s f c)) = ss_supabase_client s /\
  page_uncaught (snd (the_page s f c)) = [] /\
  page_contacted (snd (the_page s f c))
    = match c with
      | ClickTranslate =>
          if flag (show_history s) then [] else contacted (the_click s f)
      | _ => []
      end /\
  page_inserted (snd (the_page s f c))
    = match c with
      | ClickTranslate =>
          if flag (show_history s) then [] else inserted (the_click s f)
      | _ => []
      end /\
  page_queries (snd (the_page s f c))
    = (if match c with
          | ClickViewHistory => true
          | _ => flag (show_history s)
          end
       then page_queries (snd (get_user_translations select_execute s))
       else []) /\
  last_translation (fst (the_page s f c))
    = match c with
      | ClickTranslate =>
          if flag (show_history s) then last_translation s
          else match stored_last (the_click s f) with
               | Some l => Some l
               | None => last_translation s
               end
      | _ => last_translation s
      end.
Proof.
  intros Hl He Hc. unfold the_page, page. rewrite Hl, He.
  assert (Hcase :
    forall s1,
      logged_in s1 = logged_in s -> ss_user_email s1 = ss_user_email s ->
      ss_supabase_client s1 = ss_supabase_client s ->
      last_translation s1 = last_translation s ->
      (c = ClickTranslate -> s1 = s) ->
      flag (show_history s1)
        = match c with
          | ClickViewHistory => true
          | _ => flag (show_history s)
          end ->
      let r :=
        match (if flag (show_history s1)
               then history_view select_execute s1 c else (s1, [])) with
        | (s2, history) =>
            match (if negb (flag (show_history s2))
                   then translator_view OPENROUTER_API_KEY post
                          insert_execute s2 f c
                   else (s2, [])) with
            | (s3, translator) =>
                (s3, StSuccessLoggedInAs email :: history ++ translator)
            end
        end in
      logged_in (fst r) = logged_in s /\
      ss_user_email (fst r) = ss_user_email s /\
      ss_supabase_client (fst r) = ss_supabase_client s /\
      page_uncaught (snd r) = [] /\
      page_contacted (snd r)
        = match c with
          | ClickTranslate =>
              if flag (show_history s) then [] else contacted (the_click s f)
          | _ => []
          end /\
      page_inserted (snd r)
        = match c with
          | ClickTranslate =>
              if flag (show_history s) then [] else inserted (the_click s f)
          | _ => []
          end /\
      page_queries (snd r)
        = (if match c with
              | ClickViewHistory => true
              | _ => flag (show_history s)
              end
           then page_queries (snd (get_user_translations select_execute s))
           else []) /\
      last_translation (fst r)
        = match c with
          | ClickTranslate =>
              if flag (show_history s) then last_translation s
              else match stored_last (the_click s f) with
                   | Some l => Some l
                   | None => last_translation s
                   end
          | _ => last_translation s
          end).
  { intros s1 H1 H2 H3 H4 Hsame Hflag. cbv zeta.
    assert (Hq : get_user_translations select_execute s1
                 = get_user_translations select_execute s)
      by (unfold get_user_translations; rewrite H2, H3; reflexivity).
    destruct (flag (show_history s1)) eqn:Hf.
    - destruct (history_view_facts s1 c)
        as (V1 & V2 & V3 & V4 & V5 & V6 & V7 & V8 & V9).
      destruct (history_view select_execute s1 c) as [s2 history].
      cbn [fst snd] in *.
      destruct (negb (flag (show_history s2))) eqn:Hn.
      + destruct (translator_view_facts s2 f c)
          as (W1 & W2 & W3 & W4 & W5 & W6 & W7 & W8 & W9).
        cbv zeta in *.
        destruct (translator_view OPENROUTER_API_KEY post insert_execute
                    s2 f c) as [s3 translator].
        cbn [fst snd] in *.
        assert (Hback : c = ClickBack).
        { rewrite V5 in Hn. destruct c; try reflexivity;
            rewrite Hf in Hn; discriminate Hn. }
        subst c.
        unfold page_contacted, page_inserted, page_uncaught, page_queries
          in *.
        rewrite !collect_cons, !collect_app. cbn match.
        rewrite V6, V7, V8, V9, W6, W7, W8, W9, Hq, <- Hflag.
        cbn [app contacted inserted stored_last] in *.
        rewrite W1, W2, W3, W5, V1, V2, V3, V4, H1, H2, H3, H4,
          ?app_nil_r.
        repeat split; reflexivity.
      + cbn [fst snd].
        unfold page_contacted, page_inserted, page_uncaught, page_queries
          in *.
        rewrite !collect_cons, !collect_app. cbn match.
        rewrite V6, V7, V8, V9, Hq, V1, V2, V3, V4, H1, H2, H3, H4,
          ?app_nil_r.
        cbn [app collect flat_map].
        destruct c; try (rewrite <- Hflag);
          repeat split; reflexivity.
    - rewrite Hf. cbn [negb].
      destruct (translator_view_facts s1 f c)
        as (W1 & W2 & W3 & W4 & W5 & W6 & W7 & W8 & W9).
      cbv zeta in *.
      destruct (translator_view OPENROUTER_API_KEY post insert_execute
                  s1 f c) as [s3 translator].
      cbn [fst snd app] in *.
      unfold page_contacted, page_inserted, page_uncaught, page_queries
        in *.
      rewrite !collect_cons. cbn match.
      rewrite W6, W7, W8, W9, W1, W2, W3, W5, H1, H2, H3, H4.
      cbn [app].
      destruct c; try discriminate Hflag; try (rewrite <- Hflag);
        cbn [contacted inserted stored_last];
        try (rewrite (Hsame eq_refl)); repeat split; reflexivity. }
  cbv beta iota. rewrite <- Hl, <- He.
  destruct c; try (contradiction Hc; reflexivity); cbv zeta;
    first
      [ exact (Hcase s eq_refl eq_refl eq_refl eq_refl
                 (fun _ => eq_refl) eq_refl)
      | exact (Hcase
                 {| logged_in := logged_in s;
                    ss_user_email := ss_user_email s;
                    ss_supabase_client := ss_supabase_client s;
                    show_history := Some true;
                    last_translation := last_translation s |}
                 eq_refl eq_refl eq_refl eq_refl
                 (fun H => match H with end) eq_refl) ].
Qed.


Ltac main_facts s f b email Hl He F :=
  match goal with
  | |- context [the_page s f ?c] =>
      pose proof (@main_page_facts s f c b email Hl He
                    ltac:(discriminate)) as F
  end.

Lemma logged_out_page (s : session_state) (f : form) (c : click) :
  logged_in s = None ->
  page_contacted (snd (the_page s f c)) = [] /\
  page_inserted (snd (the_page s f c)) = [] /\
  page_queries (snd (the_page s f c)) = [] /\
  page_uncaught (snd (the_page s f c)) = [].
Proof.
  intro H. unfold the_page, page, login, signup. rewrite H.
  destruct c; try (repeat split; reflexivity).
  - destruct create_client; [repeat split; reflexivity|].
    destruct (sign_in_with_password _ _) as [[[[uid|]]|]|e];
      repeat split; reflexivity.
  - destruct create_client; [repeat split; reflexivity|].
    destruct (sign_up _ _); repeat split; reflexivity.
Qed.

Lemma login_cases (s : session_state) (email password : pystr) :
  (credentials_accepted create_client sign_in_with_password email password
   /\ fst (login create_client sign_in_with_password s email password)
      = {| logged_in := Some true;
           ss_user_email := Some email;
           ss_supabase_client := true;
           show_history := show_history s;
           last_translation := last_translation s |}) \/
  (~ credentials_accepted create_client sign_in_with_password email password
   /\ fst (login create_client sign_in_with_password s email password) = s).
Proof.
  unfold login, credentials_accepted.
  destruct create_client as [e|];
    [right; split; [intros [H _]; discriminate H | reflexivity]|].
  destruct (sign_in_with_password email password) as [[[[uid|]]|]|e].
  - left. split; [|reflexivity]. split; [reflexivity|].
    exists {| user := Some uid |}, uid. split; reflexivity.
  - right. split; [|reflexivity].
    intros (_ & r & uid & Hr & Hu). injection Hr as <-. discriminate Hu.
  - right. split; [|reflexivity].
    intros (_ & r & uid & Hr & _). discriminate Hr.
  - right. split; [|reflexivity].
    intros (_ & r & uid & Hr & _). discriminate Hr.
Qed.

(** X18. While ["logged_in"] is absent the page sends no request to a
    model, inserts no row and queries no history, whatever is typed or
    clicked: these happen only in a run that starts logged in. *)
Theorem services_need_login (s : session_state) (f : form) (c : click) :
  page_contacted (snd (the_page s f c)) <> [] \/
  page_inserted (snd (the_page s f c)) <> [] \/
  page_queries (snd (the_page s f c)) <> [] ->
  logged_in s <> None.
Proof.
  intros H Hnone.
  destruct (logged_out_page s f c Hnone) as (H1 & H2 & H3 & _).
  destruct H as [H | [H | H]]; [exact (H H1) | exact (H H2) | exact (H H3)].
Qed.

(** X19. The page keeps the keys of a login together: from a state in
    which ["logged_in"] comes with an e-mail and a client, every run ends
    in such a state and no run dies on a missing key. *)
Theorem page_keeps_consistent (s : session_state) (f : form) (c : click) :
  consistent s ->
  consistent (fst (the_page s f c)) /\
  page_uncaught (snd (the_page s f c)) = [].
Proof.
  intro Hs. destruct (logged_in s) as [b|] eqn:Hl.
  - assert (Hin : logged_in s <> None) by (rewrite Hl; discriminate).
    destruct (Hs Hin) as [He Hcl].
    destruct (ss_user_email s) as [email|] eqn:Hemail; [|contradiction].
    destruct c;
      try (main_facts s f b email Hl Hemail F;
           destruct F as (F1 & F2 & F3 & F4 & _);
           split; [|exact F4];
           intros _; rewrite F2, F3, Hemail; split;
           [discriminate | exact Hcl]).
    unfold the_page, page, logout. rewrite Hl, Hemail. cbn [fst snd].
    split; [intro H; contradiction H; reflexivity|].
    destruct (ss_supabase_client s); reflexivity.
  - split; [|exact (proj2 (proj2 (proj2 (logged_out_page s f c Hl))))].
    unfold the_page, page. rewrite Hl.
    destruct c; try exact Hs.
    destruct (login_cases s (login_email f) (login_password f))
      as [[_ ->] | [_ ->]]; [|exact Hs].
    intros _. split; [discriminate | reflexivity].
Qed.

(** X20. From a logged-out state only an accepted login changes the
    session: it then holds ["logged_in"], the e-mail as typed and the
    client. When the client cannot be created, the sign-in raises or
    returns no user, and after any other click, the state is as
    before. *)
Theorem login_outcome (s : session_state) (f : form) :
  logged_in s = None ->
  (credentials_accepted create_client sign_in_with_password
     (login_email f) (login_password f) ->
   fst (the_page s f ClickLogin)
   = {| logged_in := Some true;
        ss_user_email := Some (login_email f);
        ss_supabase_client := true;
        show_history := show_history s;
        last_translation := last_translation s |}) /\
  (~ credentials_accepted create_client sign_in_with_password
       (login_email f) (login_password f) ->
   fst (the_page s f ClickLogin) = s) /\
  (forall c, c <> ClickLogin -> fst (the_page s f c) = s).
Proof.
  intro Hl. unfold the_page, page. rewrite Hl.
  destruct (login_cases s (login_email f) (login_password f))
    as [[Ha E] | [Hn E]].
  - split; [intros _; exact E|]. split; [intro H; contradiction|].
    intros c Hc. destruct c; try reflexivity. contradiction Hc; reflexivity.
  - split; [intro H; contradiction|]. split; [intros _; exact E|].
    intros c Hc. destruct c; try reflexivity. contradiction Hc; reflexivity.
Qed.



(** X22. A click on Logout in a logged-in run clears the whole session
    state and stops the run; the service is told to sign out exactly when
    a client is stored. The next run, whatever is clicked, reaches no
    model, table or history. *)
Theorem logout_clears (s : session_state) (f : form) :
  logged_in s <> None -> ss_user_email s <> None ->
  fst (the_page s f ClickLogout) = cleared /\
  (exists before, snd (the_page s f ClickLogout) = before ++ [StStop]) /\
  (In AuthSignOut (snd (the_page s f ClickLogout))
   <-> ss_supabase_client s = true) /\
  forall f' c',
    page_contacted (snd (the_page (fst (the_page s f ClickLogout)) f' c'))
      = [] /\
    page_inserted (snd (the_page (fst (the_page s f ClickLogout)) f' c'))
      = [] /\
    page_queries (snd (the_page (fst (the_page s f ClickLogout)) f' c'))
      = [].
Proof.
  intros Hl He.
  destruct (logged_in s) as [b|] eqn:El; [|contradiction].
  destruct (ss_user_email s) as [email|] eqn:Ee; [|contradiction].
  assert (E : the_page s f ClickLogout =
              (cleared,
               StSuccessLoggedInAs email ::
               (if ss_supabase_client s then [AuthSignOut] else [])
                 ++ [StInfoLoggedOut; StStop])).
  { unfold the_page, page, logout. rewrite El, Ee. reflexivity. }
  rewrite E. cbn [fst snd]. split; [reflexivity|]. split; [|split].
  - exists (StSuccessLoggedInAs email ::
            (if ss_supabase_client s then [AuthSignOut] else [])
              ++ [StInfoLoggedOut]).
    cbn [app]. rewrite <- app_assoc. reflexivity.
  - destruct (ss_supabase_client s); cbn; split; intro H;
      try reflexivity; try discriminate H.
    + right. left. reflexivity.
    + destruct H as [H | [H | [H | []]]]; discriminate H.
  - intros f' c'.
    destruct (logged_out_page cleared f' c' eq_refl) as (H1 & H2 & H3 & _).
    repeat split; assumption.
Qed.

(** X23. From the page at most three models are contacted in a run, and
    they are the first models of the priority list in order: the select
    box offers 1, 2 and 3, so the last five models are never reached. *)
Theorem page_contacts_first_three (s : session_state) (f : form)
    (c : click) :
  exists n,
    n <= 3 /\
    page_contacted (snd (the_page s f c)) = firstn n FREE_MODELS.
Proof.
  assert (Hnone : exists n, n <= 3 /\ @nil pystr = firstn n FREE_MODELS)
    by (exists 0; split; [lia | reflexivity]).
  destruct (logged_in s) as [b|] eqn:Hl;
    [| rewrite (proj1 (logged_out_page s f c Hl)); exact Hnone].
  destruct (ss_user_email s) as [email|] eqn:He;
    [| unfold the_page, page; rewrite Hl, He; exact Hnone].
  destruct c;
    try (main_facts s f b email Hl He F;
         rewrite (proj1 (proj2 (proj2 (proj2 (proj2 F))))); clear F;
         try exact Hnone);
    [ unfold the_page, page, logout; rewrite Hl, He; cbn [fst snd];
      destruct (ss_supabase_client s); exact Hnone |].
  destruct (flag (show_history s)); [exact Hnone|].
  unfold the_click. rewrite contacted_click.
  destruct (_ && _); [|exact Hnone].
  destruct (attempted_contacted OPENROUTER_API_KEY post (f_input_text f)
              (f_target_culture f) (max_attempts_of (f_models f)))
    as [-> _].
  set (n0 := length _).
  assert (Hs : slice_to FREE_MODELS (max_attempts_of (f_models f))
               = firstn (Z.to_nat (max_attempts_of (f_models f)))
                        FREE_MODELS)
    by (destruct (f_models f); reflexivity).
  rewrite Hs, firstn_firstn.
  exists (Nat.min n0 (Z.to_nat (max_attempts_of (f_models f)))).
  split; [|reflexivity].
  destruct (f_models f); cbn [max_attempts_of]; lia.
Qed.

(** X24. A run queries the history at most once, and only for the rows of
    the user of the session: the query names the table of translations,
    filters on the e-mail of the session, asks for the newest first and
    for 10 rows at most. *)
Theorem history_query_own_rows (s : session_state) (f : form) (c : click) :
  length (page_queries (snd (the_page s f c))) <= 1 /\
  forall q,
    In q (page_queries (snd (the_page s f c))) ->
    ss_user_email s = Some (q_user_email q) /\
    q_table q = u "humor_translations" /\
    q_order q = u "created_at" /\ q_desc q = true /\ q_limit q = 10%Z.
Proof.
  assert (Hnone : length (@nil history_query) <= 1 /\
                  forall q, In q (@nil history_query) ->
                    ss_user_email s = Some (q_user_email q) /\
                    q_table q = u "humor_translations" /\
                    q_order q = u "created_at" /\ q_desc q = true /\
                    q_limit q = 10%Z)
    by (split; [cbn; lia | intros q []]).
  destruct (logged_in s) as [b|] eqn:Hl;
    [| rewrite (proj1 (proj2 (proj2 (logged_out_page s f c Hl))));
       exact Hnone].
  destruct (ss_user_email s) as [email|] eqn:He;
    [| unfold the_page, page; rewrite Hl, He; exact Hnone].
  assert (Hq : length (page_queries
                         (snd (get_user_translations select_execute s)))
               <= 1 /\
               forall q,
                 In q (page_queries
                         (snd (get_user_translations select_execute s))) ->
                 Some email = Some (q_user_email q) /\
                 q_table q = u "humor_translations" /\
                 q_order q = u "created_at" /\ q_desc q = true /\
                 q_limit q = 10%Z).
  { unfold get_user_translations. rewrite He.
    destruct (ss_supabase_client s); [|split; [cbn; lia | intros q []]].
    cbv zeta. destruct (select_execute _); cbn [snd];
      (split; [cbn; lia | intros q [<- | []]; repeat split]). }
  destruct c;
    try (main_facts s f b email Hl He F;
         rewrite (proj1 (proj2 (proj2 (proj2 (proj2 (proj2 (proj2 F)))))));
         clear F;
         try (destruct (flag (show_history s)); [exact Hq | exact Hnone]);
         try exact Hq).
  unfold the_page, page, logout. rewrite Hl, He. cbn [fst snd].
  destruct (ss_supabase_client s); exact Hnone.
Qed.


(** X26. In a logged-in run showing the translator, with both fields
    filled in, a click on Translate that is accepted stores the inputs,
    the accepted text and its model as the last translation; when no
    model is accepted, the last translation stays what it was. *)
Theorem last_translation_follows_accept (s : session_state) (f : form)
    (b : bool) (email : pystr) :
  logged_in s = Some b -> ss_user_email s = Some email ->
  flag (show_history s) = false ->
  truthy (f_input_text f) = true -> truthy (f_target_culture f) = true ->
  (forall i m text,
     accepted_at OPENROUTER_API_KEY post (f_input_text f)
                 (f_target_culture f) (max_attempts_of (f_models f))
                 i m text ->
     last_translation (fst (the_page s f ClickTranslate))
     = Some {| lt_original := f_input_text f;
               lt_target := f_target_culture f;
               lt_translated := text;
               lt_model := Some m |}) /\
  (none_accepted OPENROUTER_API_KEY post (f_input_text f)
                 (f_target_culture f) (max_attempts_of (f_models f)) ->
   last_translation (fst (the_page s f ClickTranslate))
   = last_translation s).
Proof.
  intros Hl He Hh Hi Hc.
  destruct (@main_page_facts s f ClickTranslate b email Hl He
              ltac:(discriminate))
    as (_ & _ & _ & _ & _ & _ & _ & ->).
  rewrite Hh. unfold the_click.
  pose proof (stored_last_run OPENROUTER_API_KEY post (f_input_text f)
                (f_target_culture f) (max_attempts_of (f_models f)))
    as Hrun.
  destruct (run_cases OPENROUTER_API_KEY post (f_input_text f)
              (f_target_culture f) (max_attempts_of (f_models f)))
    as [(text & m & log & tr & Hr) | (log & tr & Hr)].
  - rewrite (@click_after_accept OPENROUTER_API_KEY post insert_execute
               (session_of s) (f_input_text f) (f_target_culture f)
               (max_attempts_of (f_models f)) (f_save_translation f)
               (f_show_debug f) text m log tr Hi Hc Hr).
    rewrite !stored_last_app. cbn [stored_last].
    assert (Hf : first_success OPENROUTER_API_KEY post
                   (make_prompt (f_input_text f) (f_target_culture f))
                   (enumerate (slice_to FREE_MODELS
                                 (max_attempts_of (f_models f))))
                 = Some (text, m)).
    { rewrite run_spec in Hr.
      destruct (first_success _ _ _ _) as [[t m']|]; [|discriminate Hr].
      cbn [option_map fst snd] in Hr. injection Hr as -> -> _ _.
      reflexivity. }
    split.
    + intros i m' text' Hat.
      assert (Hf' := proj2 (first_success_accepted OPENROUTER_API_KEY post
                              (f_input_text f) (f_target_culture f)
                              (max_attempts_of (f_models f)) text' m')
                           (ex_intro _ i Hat)).
      rewrite Hf in Hf'. injection Hf' as <- <-. reflexivity.
    + intro Hnone. exfalso.
      apply first_success_accepted in Hf. destruct Hf as (i & Hn & Ha & _).
      exact (Hnone i m text Hn Ha).
  - rewrite (@click_after_failure OPENROUTER_API_KEY post insert_execute
               (session_of s) (f_input_text f) (f_target_culture f)
               (max_attempts_of (f_models f)) (f_save_translation f)
               (f_show_debug f) log tr Hi Hc Hr).
    rewrite stored_last_app, stored_last_report_failure.
    rewrite Hr in Hrun. unfold trace_of in Hrun. cbn [snd] in Hrun.
    rewrite Hrun. split; [|reflexivity].
    intros i m text Hat. exfalso.
    assert (Hf := proj2 (first_success_accepted OPENROUTER_API_KEY post
                           (f_input_text f) (f_target_culture f)
                           (max_attempts_of (f_models f)) text m)
                        (ex_intro _ i Hat)).
    rewrite run_spec, Hf in Hr. discriminate Hr.
Qed.

End AboutThePage.

(* ================================================================== *)
(** ** The further properties on sample worlds *)
(* ================================================================== *)

Lemma post_ok_accepts_first :
  accepts (post_ok 0 (make_request sample_key
                        (make_prompt (u "joke") (u "German")) first_model))
          chicken.
Proof.
  exists {| status_code := 200; json_body := Some (body_with chicken) |},
         (body_with chicken).
  repeat split; reflexivity.
Defined.

Lemma post_ok_accepted_at :
  accepted_at sample_key post_ok (u "joke") (u "German") 3 0 first_model
              chicken.
Proof.
  split; [reflexivity|]. split; [exact post_ok_accepts_first|].
  intros j mj t Hj. exfalso. exact (Nat.nlt_0_r j Hj).
Defined.

Lemma requests_uniform_witness :
  In (RequestsPost first_request)
     (trace_of (smart_translate_humor sample_key post_timeout
                  (u "joke") (u "German") 1)) /\
  max_tokens first_request = 500%Z /\ timeout first_request = 30%Z.
Proof.
  assert (H : In (RequestsPost first_request)
                (trace_of (smart_translate_humor sample_key post_timeout
                             (u "joke") (u "German") 1)))
    by (left; reflexivity).
  split; [exact H|].
  destruct (requests_uniform sample_key post_timeout (u "joke")
              (u "German") 1 first_request H) as (_ & _ & Hm & Ht & _).
  split; [exact Hm | exact Ht].
Defined.


Lemma single_attempt_is_quiet_witness :
  (1 <= 1)%Z /\
  forallb quiet (trace_of (smart_translate_humor sample_key post_timeout
                             (u "joke") (u "German") 1)) = true.
Proof.
  assert (Hk : (1 <= 1)%Z) by (intro H; discriminate H).
  split; [exact Hk|].
  exact (single_attempt_is_quiet sample_key post_timeout (u "joke")
           (u "German") Hk).
Defined.

Lemma first_model_accepted_witness :
  (1 <= 3)%Z /\
  fst (smart_translate_humor sample_key post_ok (u "joke") (u "German") 3)
  = (Some chicken, Some first_model,
     [u "Attempt 1: mistral-small-3.2-24b-instruct:free"]).
Proof.
  assert (Hk : (1 <= 3)%Z) by (intro H; discriminate H).
  split; [exact Hk|].
  rewrite (first_model_accepted sample_key post_ok (u "joke") (u "German")
             Hk post_ok_accepts_first).
  reflexivity.
Defined.

Lemma empty_budget_witness :
  (0 = 0 \/ 0 <= -8)%Z /\
  smart_translate_humor sample_key post_ok (u "joke") (u "German") 0
  = ((None, None, []), []).
Proof.
  assert (Hk : (0 = 0 \/ 0 <= -8)%Z) by (left; reflexivity).
  split; [exact Hk|].
  exact (empty_budget sample_key post_ok (u "joke") (u "German") Hk).
Defined.

Lemma negative_budget_witness :
  (-8 < -1 < 0)%Z /\
  length (contacted (trace_of (smart_translate_humor sample_key post_timeout
                                 (u "joke") (u "German") (-1)))) = 7.
Proof.
  assert (Hk : (-8 < -1 < 0)%Z) by (split; reflexivity).
  split; [exact Hk|].
  rewrite (negative_budget Hk (post_timeout_none_accepted (-1))).
  reflexivity.
Defined.

Lemma failure_is_reported_witness :
  truthy (u "joke") = true /\ truthy (u "German") = true /\
  inserted (on_translate sample_key post_timeout insert_ok sample_session
              (u "joke") (u "German") 2 true false) = [].
Proof.
  split; [reflexivity|]. split; [reflexivity|].
  rewrite (failure_is_reported insert_ok sample_session true false
             (eq_refl : truthy (u "joke") = true)
             (eq_refl : truthy (u "German") = true)
             (post_timeout_none_accepted 2)).
  vm_compute. reflexivity.
Defined.

Lemma success_is_shown_witness :
  truthy (u "joke") = true /\ truthy (u "German") = true /\
  In (StMarkdown chicken)
     (on_translate sample_key post_ok insert_ok sample_session
                   (u "joke") (u "German") 3 true false).
Proof.
  split; [reflexivity|]. split; [reflexivity|].
  rewrite (success_is_shown insert_ok sample_session true false
             (eq_refl : truthy (u "joke") = true)
             (eq_refl : truthy (u "German") = true)
             post_ok_accepted_at).
  apply in_or_app. right. right. left. reflexivity.
Defined.

Lemma no_insert_without_opt_in_witness :
  (false = false \/ supabase_client sample_session = false
   \/ user_email sample_session = None) /\
  inserted (on_translate sample_key post_ok insert_ok sample_session
              (u "joke") (u "German") 3 false false) = [].
Proof.
  assert (H : false = false \/ supabase_client sample_session = false
              \/ user_email sample_session = None) by (left; reflexivity).
  split; [exact H|].
  exact (no_insert_without_opt_in sample_key post_ok insert_ok
           sample_session (u "joke") (u "German") 3 false H).
Defined.

Lemma saved_message_regardless_witness :
  text_of (smart_translate_humor sample_key post_ok (u "joke")
             (u "German") 3) <> None /\
  In StSuccessSaved
     (on_translate sample_key post_ok insert_refused sample_session
                   (u "joke") (u "German") 3 true false).
Proof.
  assert (H : text_of (smart_translate_humor sample_key post_ok (u "joke")
                         (u "German") 3) <> None)
    by (intro E; discriminate E).
  split; [exact H|].
  exact (proj1 (@saved_message_regardless sample_key post_ok insert_refused
                  sample_session (u "joke") (u "German") 3 true false
                  eq_refl eq_refl eq_refl H)).
Defined.

Lemma text_iff_model_witness :
  text_of (smart_translate_humor sample_key post_ok (u "joke")
             (u "German") 3) = Some chicken /\
  used_of (smart_translate_humor sample_key post_ok (u "joke")
             (u "German") 3) = Some first_model.
Proof.
  exact (proj1 (proj2 (text_iff_model sample_key post_ok (u "joke")
                         (u "German") 3))
               0 first_model chicken post_ok_accepted_at).
Defined.

Lemma pauses_between_attempts_witness :
  (2 <= 8)%Z /\
  sleeps (skipn 6 (trace_of (smart_translate_humor sample_key
                               post_limited_then_ok (u "joke")
                               (u "German") 2))) = [].
Proof.
  assert (Hk : (2 <= 8)%Z) by (intro H; discriminate H).
  split; [exact Hk|].
  exact (proj1 (proj2 (pauses_between_attempts sample_key
                         post_limited_then_ok (u "joke") (u "German") 2))
               Hk
               (firstn 5 (trace_of (smart_translate_humor sample_key
                                      post_limited_then_ok (u "joke")
                                      (u "German") 2)))
               (make_request sample_key (make_prompt (u "joke") (u "German"))
                             second_model)
               (skipn 6 (trace_of (smart_translate_humor sample_key
                                     post_limited_then_ok (u "joke")
                                     (u "German") 2)))
               eq_refl eq_refl).
Defined.

Lemma services_need_login_witness :
  page_contacted (snd (sample_page logged_in_state sample_form
                         ClickTranslate)) <> [] /\
  logged_in logged_in_state <> None.
Proof.
  assert (H : page_contacted (snd (sample_page logged_in_state sample_form
                                     ClickTranslate)) <> [])
    by (intro E; discriminate E).
  split; [exact H|].
  exact (services_need_login sample_key post_ok insert_ok no_client
           sign_up_ok sign_in_ok select_none logged_in_state sample_form
           ClickTranslate (or_introl H)).
Defined.

Lemma logged_in_state_consistent : consistent logged_in_state.
Proof. intros _. split; [intro E; discriminate E | reflexivity]. Defined.

Lemma page_keeps_consistent_witness :
  consistent logged_in_state /\
  consistent (fst (sample_page logged_in_state sample_form ClickTranslate)).
Proof.
  split; [exact logged_in_state_consistent|].
  exact (proj1 (page_keeps_consistent sample_key post_ok insert_ok no_client
                  sign_up_ok sign_in_ok select_none sample_form
                  ClickTranslate logged_in_state_consistent)).
Defined.

Lemma sample_credentials_accepted :
  credentials_accepted no_client sign_in_ok (login_email sample_form)
                       (login_password sample_form).
Proof.
  split; [reflexivity|].
  exists {| user := Some (u "user-1") |}, (u "user-1").
  split; reflexivity.
Defined.

Lemma login_outcome_witness :
  logged_in cleared = None /\
  ss_user_email (fst (sample_page cleared sample_form ClickLogin))
  = Some (u "ann@example.org").
Proof.
  split; [reflexivity|]. unfold sample_page.
  rewrite (proj1 (login_outcome sample_key post_ok insert_ok no_client
                    sign_up_ok sign_in_ok select_none cleared sample_form
                    eq_refl) sample_credentials_accepted).
  reflexivity.
Defined.


Lemma logout_clears_witness :
  logged_in logged_in_state <> None /\
  ss_user_email logged_in_state <> None /\
  fst (sample_page logged_in_state sample_form ClickLogout) = cleared.
Proof.
  assert (H1 : logged_in logged_in_state <> None)
    by (intro E; discriminate E).
  assert (H2 : ss_user_email logged_in_state <> None)
    by (intro E; discriminate E).
  split; [exact H1|]. split; [exact H2|].
  exact (proj1 (@logout_clears sample_key post_ok insert_ok no_client
                  sign_up_ok sign_in_ok select_none logged_in_state
                  sample_form H1 H2)).
Defined.


Lemma last_translation_follows_accept_witness :
  flag (show_history logged_in_state) = false /\
  last_translation (fst (sample_page logged_in_state sample_form
                           ClickTranslate))
  = Some {| lt_original := u "joke";
            lt_target := u "German";
            lt_translated := chicken;
            lt_model := Some first_model |}.
Proof.
  split; [reflexivity|].
  exact (proj1 (@last_translation_follows_accept sample_key post_ok
                  insert_ok no_client sign_up_ok sign_in_ok select_none
                  logged_in_state sample_form true (u "ann@example.org")
                  eq_refl eq_refl eq_refl eq_refl eq_refl)
               0 first_model chicken post_ok_accepted_at).
Defined.
